(** * Civic complaint platform: a shallow embedding of the in-memory
      complaint router (routes/complaints.js), of the one-time-passcode
      routes of the server (server.js) and of the complaint schema
      (models/Complaint.js), with the properties of the specification
      settled against them.

    Conventions of the embedding.
    - A JavaScript string is a [string] of 8-bit characters; case folding
      and white space are the ASCII ones.
    - A request field is an [option string]: [None] is [undefined].
      Multipart form fields, which is what the upload middleware hands to
      the handlers, are always strings.
    - A clock reading ([Date.now()], [new Date()]) is an integer number of
      milliseconds and is an input of the handler that reads it.
    - A random draw ([Math.random()]) is an input of the function that
      draws it.
    - The stores ([complaints], [users], [otpStore]) are threaded through
      the handlers explicitly. *)

From Stdlib Require Import ZArith NArith List Ascii String Lia Permutation Sorted Bool.
From stdpp Require Import base option list strings gmap fin_maps.

Local Open Scope string_scope.
Local Open Scope Z_scope.

(** ** JavaScript primitives used by the handlers *)
Module JS.

(** Truthiness of a string field: [undefined] and the empty string are falsy. *)
Definition truthy (v : option string) : bool :=
  match v with
  | None => false
  | Some s => negb (String.eqb s "")
  end.

(** [v === s] for a string literal [s]. *)
Definition strict_eq (v : option string) (s : string) : bool :=
  match v with
  | Some t => String.eqb t s
  | None => false
  end.

(** [a || b] on a string field and a string default. *)
Definition or_else (v : option string) (d : string) : string :=
  match v with
  | Some s => if String.eqb s "" then d else s
  | None => d
  end.

(** [a || b] when both sides may be [undefined]. *)
Definition or_opt (v w : option string) : option string :=
  if truthy v then v else w.

(** A template-literal hole [${v}]: [undefined] prints as the word. *)
Definition interpolate (v : option string) : string :=
  match v with
  | Some s => s
  | None => "undefined"
  end.

Definition is_upper (c : ascii) : bool :=
  let n := N_of_ascii c in ((65 <=? n) && (n <=? 90))%N.

Definition is_lower (c : ascii) : bool :=
  let n := N_of_ascii c in ((97 <=? n) && (n <=? 122))%N.

Definition is_digit (c : ascii) : bool :=
  let n := N_of_ascii c in ((48 <=? n) && (n <=? 57))%N.

Definition lower_char (c : ascii) : ascii :=
  if is_upper c then ascii_of_N (N_of_ascii c + 32) else c.

Definition upper_char (c : ascii) : ascii :=
  if is_lower c then ascii_of_N (N_of_ascii c - 32) else c.

Fixpoint map_string (f : ascii -> ascii) (s : string) : string :=
  match s with
  | EmptyString => EmptyString
  | String c s' => String (f c) (map_string f s')
  end.

(** [String.prototype.toLowerCase] and [toUpperCase]. *)
Definition toLowerCase : string -> string := map_string lower_char.
Definition toUpperCase : string -> string := map_string upper_char.

(** [s.startsWith(p)]. *)
Fixpoint startsWith (p s : string) : bool :=
  match p, s with
  | EmptyString, _ => true
  | String a p', String b s' => Ascii.eqb a b && startsWith p' s'
  | String _ _, EmptyString => false
  end.

(** [s.includes(p)]: [p] occurs somewhere in [s]. *)
Fixpoint includes (s p : string) : bool :=
  startsWith p s ||
  match s with
  | EmptyString => false
  | String _ s' => includes s' p
  end.

(** [s.substring(i, j)] for [0 <= i <= j]. *)
Fixpoint drop (n : nat) (s : string) : string :=
  match n, s with
  | O, _ => s
  | S _, EmptyString => EmptyString
  | S n', String _ s' => drop n' s'
  end.

Fixpoint take (n : nat) (s : string) : string :=
  match n, s with
  | O, _ => EmptyString
  | S _, EmptyString => EmptyString
  | S n', String c s' => String c (take n' s')
  end.

Definition substring (i j : nat) (s : string) : string :=
  take (j - i) (drop i s).

(** White space: tab, line feed, vertical tab, form feed, carriage return, space. *)
Definition is_space (c : ascii) : bool :=
  let n := N_of_ascii c in (((9 <=? n) && (n <=? 13)) || (n =? 32))%N.

Fixpoint trimStart (s : string) : string :=
  match s with
  | EmptyString => EmptyString
  | String c s' => if is_space c then trimStart s' else s
  end.

Fixpoint trimEnd (s : string) : string :=
  match s with
  | EmptyString => EmptyString
  | String c s' =>
      let t := trimEnd s' in
      if is_space c && String.eqb t "" then EmptyString else String c t
  end.

Definition trim (s : string) : string := trimEnd (trimStart s).

(** [s.replace(/p/g, '')] for a literal, non-empty pattern [p]: the
    occurrences are removed from left to right without overlap. [skip]
    counts the characters of a match still to be dropped. *)
Fixpoint remove_from (p : string) (skip : nat) (s : string) : string :=
  match s with
  | EmptyString => EmptyString
  | String c s' =>
      match skip with
      | S k => remove_from p k s'
      | O =>
          if startsWith p s then remove_from p (String.length p - 1) s'
          else String c (remove_from p O s')
      end
  end.

Definition removeAll (p s : string) : string := remove_from p O s.

(** *** Numbers to strings *)

(** The digit characters [0-9a-z] of [Number.prototype.toString(radix)]. *)
Definition digit_char (d : N) : ascii :=
  if (d <? 10)%N then ascii_of_N (48 + d) else ascii_of_N (87 + d).

(** Digits of [n] in [radix], most significant first, pushed on [acc]. The
    fuel bounds the number of digits; the bit size of [n] is enough. *)
Fixpoint radix_digits (fuel : nat) (radix n : N) (acc : string) : string :=
  match fuel with
  | O => acc
  | S f =>
      let acc' := String (digit_char (n mod radix)%N) acc in
      if (n / radix =? 0)%N then acc' else radix_digits f radix (n / radix)%N acc'
  end.

(** [n.toString(radix)] for a non-negative integer [n]. *)
Definition toStringRadix (radix n : N) : string :=
  radix_digits (S (N.size_nat n)) radix n EmptyString.

(** The value of a digit character in a radix up to 36, either case. *)
Definition digit_value (c : ascii) : option N :=
  let n := N_of_ascii c in
  if is_digit c then Some (n - 48)%N
  else if is_lower c then Some (n - 87)%N
  else if is_upper c then Some (n - 55)%N
  else None.

(** Reads the numeral [s] in [radix] on top of the value [acc]; [None] when
    a character is not a digit of the radix. *)
Fixpoint read_radix (radix : N) (acc : N) (s : string) : option N :=
  match s with
  | EmptyString => Some acc
  | String c s' =>
      match digit_value c with
      | Some d => if (d <? radix)%N then read_radix radix (acc * radix + d)%N s' else None
      | None => None
      end
  end.

(** *** Strings to numbers *)

(** A parsed number: [NaN], an infinity, or the decimal [mant * 10^exp]
    with its sign (the engine rounds that real number to the nearest
    double; the rounding is not part of the model). *)
Inductive number : Type :=
  | NaN
  | Infinity (neg : bool)
  | Decimal (neg : bool) (mant : N) (exp : Z).

(** The longest run of decimal digits at the head of [s]: its value on top
    of [acc], the number of digits read on top of [cnt], and the rest. *)
Fixpoint read_digits (acc : N) (cnt : nat) (s : string) : N * nat * string :=
  match s with
  | String c s' =>
      if is_digit c then read_digits (acc * 10 + (N_of_ascii c - 48))%N (S cnt) s'
      else (acc, cnt, s)
  | EmptyString => (acc, cnt, s)
  end.

(** An optional sign at the head of [s]. *)
Definition read_sign (s : string) : bool * string :=
  match s with
  | String "-" s' => (true, s')
  | String "+" s' => (false, s')
  | _ => (false, s)
  end.

(** The exponent part [e[+-]digits] at the head of [s], 0 when there is none. *)
Definition read_exponent (s : string) : Z :=
  match s with
  | String c s' =>
      if Ascii.eqb c "e" || Ascii.eqb c "E" then
        let '(neg, s1) := read_sign s' in
        let '(v, cnt, _) := read_digits 0%N O s1 in
        match cnt with
        | O => 0
        | S _ => if neg then - Z.of_N v else Z.of_N v
        end
      else 0
  | EmptyString => 0
  end.

(** [parseFloat(s)] on a string: leading white space is skipped and the
    longest prefix that is a decimal literal is read. *)
Definition parseFloat_string (s : string) : number :=
  let '(neg, s1) := read_sign (trimStart s) in
  if startsWith "Infinity" s1 then Infinity neg
  else
    let '(ip, icnt, s2) := read_digits 0%N O s1 in
    let '(m, fcnt, s3) :=
      match s2 with
      | String "." s2' =>
          let '(m, cnt, rest) := read_digits ip O s2' in
          match icnt, cnt with
          | O, O => (ip, O, s2)
          | _, _ => (m, cnt, rest)
          end
      | _ => (ip, O, s2)
      end in
    match icnt, fcnt with
    | O, O => NaN
    | _, _ => Decimal neg m (read_exponent s3 - Z.of_nat fcnt)
    end.

(** [parseFloat(v)] on a request field: [undefined] is first converted to
    the string of that name, which holds no number. *)
Definition parseFloat (v : option string) : number :=
  parseFloat_string (interpolate v).

(** [parseInt(s)] with no radix: white space and a sign are skipped, a
    [0x] prefix selects radix 16, and the longest run of digits is read.
    [None] is [NaN]. *)
Fixpoint read_hex (acc : N) (cnt : nat) (s : string) : N * nat :=
  match s with
  | String c s' =>
      match digit_value c with
      | Some d => if (d <? 16)%N then read_hex (acc * 16 + d)%N (S cnt) s' else (acc, cnt)
      | None => (acc, cnt)
      end
  | EmptyString => (acc, cnt)
  end.

Definition parseInt (s : string) : option Z :=
  let '(neg, s1) := read_sign (trimStart s) in
  let '(v, cnt) :=
    if startsWith "0x" s1 || startsWith "0X" s1 then read_hex 0%N O (drop 2 s1)
    else let '(v, cnt, _) := read_digits 0%N O s1 in (v, cnt) in
  match cnt with
  | O => None
  | S _ => Some (if neg then - Z.of_N v else Z.of_N v)
  end.

(** [l.slice(start, end)]: [NaN] counts as 0, a negative index counts from
    the end, and both indices are clamped to the length. *)
Definition clamp_index (len : Z) (i : option Z) : Z :=
  match i with
  | None => 0
  | Some k => if k <? 0 then Z.max (len + k) 0 else Z.min k len
  end.

Definition slice {A : Type} (start stop : option Z) (l : list A) : list A :=
  let len := Z.of_nat (List.length l) in
  let k := clamp_index len start in
  let final := clamp_index len stop in
  List.firstn (Z.to_nat (final - k)) (List.skipn (Z.to_nat k) l).

(** [a + b] on two results of [parseInt]. *)
Definition add (a b : option Z) : option Z :=
  match a, b with
  | Some x, Some y => Some (x + y)
  | _, _ => None
  end.

End JS.

(** ** Plain objects used as tables

    [departmentMap] and [byType] are object literals, so a key that is not
    an own property is looked up on [Object.prototype]. *)
Module Obj.

(** The function-valued members of [Object.prototype]. *)
Definition prototype_functions : list string :=
  [ "constructor"; "hasOwnProperty"; "isPrototypeOf"; "propertyIsEnumerable";
    "toLocaleString"; "toString"; "valueOf";
    "__defineGetter__"; "__defineSetter__"; "__lookupGetter__"; "__lookupSetter__" ].

(** The accessor [__proto__], whose setter ignores a primitive. *)
Definition proto_accessor : string := "__proto__".

Definition is_prototype_function (k : string) : bool :=
  List.existsb (String.eqb k) prototype_functions.

Definition inherited (k : string) : bool :=
  is_prototype_function k || String.eqb k proto_accessor.

(** What the inherited member [k] becomes when it is added to a number or
    a string: the source text of a native function, or the tag of the
    prototype object. *)
Definition inherited_text (k : string) : string :=
  if String.eqb k proto_accessor then "[object Object]"
  else "function " +:+ (if String.eqb k "constructor" then "Object" else k)
       +:+ "() { [native code] }".

(** A property read on a table of strings: an own string, or the inherited
    member of that name. *)
Inductive value : Type :=
  | Str (s : string)
  | Inherited (name : string).

Fixpoint own (table : list (string * string)) (k : string) : option string :=
  match table with
  | [] => None
  | (k', v) :: rest => if String.eqb k k' then Some v else own rest k
  end.

Definition get (table : list (string * string)) (k : string) : option value :=
  match own table k with
  | Some v => Some (Str v)
  | None => if inherited k then Some (Inherited k) else None
  end.

End Obj.

(** ** The complaint router *)
Module Complaints.

Record Location : Type := {
  latitude : JS.number;
  longitude : JS.number;
  address : string
}.

(** A record of the [complaints] array, with the fields of the object
    literal built by the create handler and the two fields that only an
    update adds. *)
Record Complaint : Type := {
  _id : string;
  complaintId : string;
  issueType : option string;
  description : option string;
  department : Obj.value;
  location : Location;
  citizenName : string;
  citizenPhone : string;
  citizenEmail : string;
  photo : string;
  status : string;
  priority : string;
  assignedTo : Obj.value;
  aiAnalysis : bool;
  createdAt : Z;
  updatedAt : Z;
  resolutionNotes : option string;
  resolutionPhoto : option string
}.

(** The stored upload of a request ([req.file]). *)
Record File : Type := { path : string; filename : string }.

(** *** generateComplaintId *)

(** [n.toString(radix)] for an integer clock reading. *)
Definition toStringZ (radix : N) (z : Z) : string :=
  if z <? 0 then "-" +:+ JS.toStringRadix radix (Z.abs_N z)
  else JS.toStringRadix radix (Z.abs_N z).

(** [now] is [Date.now()] and [rnd] is [Math.random().toString(36)]. *)
Definition generateComplaintId (now : Z) (rnd : string) : string :=
  let prefix := "CIV" in
  let timestamp := JS.toUpperCase (toStringZ 36 now) in
  let random := JS.toUpperCase (JS.substring 2 6 rnd) in
  prefix +:+ "-" +:+ timestamp +:+ "-" +:+ random.

(** What [Math.random().toString(36)] can print: the draw is in [0, 1), so
    it is [0] alone or [0.] followed by at least one digit of [0-9a-z]. *)
Definition is_digit36 (c : ascii) : bool := JS.is_digit c || JS.is_lower c.

Fixpoint all_chars (p : ascii -> bool) (s : string) : bool :=
  match s with
  | EmptyString => true
  | String c s' => p c && all_chars p s'
  end.

Definition unit_radix36 (rnd : string) : bool :=
  String.eqb rnd "0" ||
  (JS.startsWith "0." rnd && negb (String.eqb (JS.drop 2 rnd) "")
   && all_chars is_digit36 (JS.drop 2 rnd)).

(** An upper-case base-36 character, [0-9A-Z]. *)
Definition is_upper36 (c : ascii) : bool := JS.is_digit c || JS.is_upper c.

(** *** analyzeImageWithGemini *)

(** The object read from the model's answer: the three properties the
    create handler reads, each [None] when absent. *)
Record AiAnalysis : Type := {
  ai_issueType : option string;
  ai_priority : option string;
  ai_description : option string
}.

(** The outcome of [JSON.parse]: a thrown syntax error, a falsy value
    ([null], [false], [0] or the empty string) or a truthy one, seen
    through the three properties read from it. *)
Inductive Parsed : Type :=
  | SyntaxError
  | Falsy
  | Truthy (a : AiAnalysis).

(** The process environment and the outside world of the adapter: the
    credential, the file system, the remote model ([None] is a thrown or
    rejected call) and the JSON parser. *)
Record Env : Type := {
  GEMINI_API_KEY : option string;
  readFileSync : string -> option string;
  generateContent : string -> string -> option string;
  JSON_parse : string -> Parsed
}.

Inductive event : Type :=
  | ReadFile (filePath : string)
  | NetworkCall (key image : string).

(** Returns the analysis, [None] for [null] (a falsy parse result is
    treated by the caller exactly as [null]), and the effects performed. *)
Definition analyzeImageWithGemini (env : Env) (filePath : string)
  : option AiAnalysis * list event :=
  if negb (JS.truthy (GEMINI_API_KEY env)) then (None, [])
  else
    let key := JS.interpolate (GEMINI_API_KEY env) in
    match readFileSync env filePath with
    | None => (None, [ReadFile filePath])
    | Some imageBuffer =>
        let trace := [ReadFile filePath; NetworkCall key imageBuffer] in
        match generateContent env key imageBuffer with
        | None => (None, trace)
        | Some text =>
            let jsonStr := JS.trim (JS.removeAll "```" (JS.removeAll "```json" text)) in
            match JSON_parse env jsonStr with
            | SyntaxError => (None, trace)
            | Falsy => (None, trace)
            | Truthy a => (Some a, trace)
            end
        end
    end.

(** *** POST / *)

Module Body.
Record t : Type := {
  issueType : option string;
  description : option string;
  latitude : option string;
  longitude : option string;
  address : option string;
  citizenName : option string;
  citizenPhone : option string;
  citizenEmail : option string
}.
End Body.

Record Request : Type := { body : Body.t; file : option File }.

(** The clock readings of one create request, in program order:
    [new Date()], the [Date.now()] of [_id], the [Date.now()] of
    [generateComplaintId]. *)
Record Clock : Type := { t_now : Z; t_id : Z; t_gen : Z }.

(** The vision step: the analysis, then the issue type and the description
    as the rest of the handler sees them. *)
Definition visionStep (env : Env) (req : Request)
  : option AiAnalysis * option string * option string * list event :=
  let issueType := Body.issueType (body req) in
  let description := Body.description (body req) in
  match file req with
  | None => (None, issueType, description, [])
  | Some f =>
      let '(aiAnalysis, trace) := analyzeImageWithGemini env (path f) in
      match aiAnalysis with
      | None => (None, issueType, description, trace)
      | Some a =>
          let issueType' := JS.or_opt (ai_issueType a) issueType in
          let aiDesc :=
            if JS.truthy (ai_description a)
            then "(AI Detected: " +:+ JS.interpolate (ai_description a) +:+ ")"
            else "" in
          let description' := JS.interpolate description +:+ " " +:+ aiDesc in
          (Some a, issueType', Some description', trace)
      end
  end.

(** [if (!issueType || !latitude || !longitude) issueType = issueType || 'other']. *)
Definition defaultIssueType (issueType latitude longitude : option string) : option string :=
  if negb (JS.truthy issueType) || negb (JS.truthy latitude) || negb (JS.truthy longitude)
  then Some (JS.or_else issueType "other")
  else issueType.

(** The keyword fallback. *)
Definition smartFallback (issueType description : option string) : option string :=
  if JS.strict_eq issueType "other" && JS.truthy description then
    let lowerDesc := JS.toLowerCase (JS.interpolate description) in
    if JS.includes lowerDesc "road" || JS.includes lowerDesc "pothole"
       || JS.includes lowerDesc "crack" || JS.includes lowerDesc "hole"
    then Some "pothole"
    else if JS.includes lowerDesc "garbage" || JS.includes lowerDesc "trash"
            || JS.includes lowerDesc "waste" || JS.includes lowerDesc "dustbin"
            || JS.includes lowerDesc "plastic"
    then Some "garbage"
    else if JS.includes lowerDesc "light" || JS.includes lowerDesc "lamp"
            || JS.includes lowerDesc "dark" || JS.includes lowerDesc "pole"
    then Some "streetlight"
    else if JS.includes lowerDesc "water" || JS.includes lowerDesc "leak"
            || JS.includes lowerDesc "pipe" || JS.includes lowerDesc "drain"
            || JS.includes lowerDesc "sewage"
    then Some "water-leakage"
    else if JS.includes lowerDesc "toilet" || JS.includes lowerDesc "bathroom"
            || JS.includes lowerDesc "urinal"
    then Some "dirty-toilet"
    else issueType
  else issueType.

Definition departmentMap : list (string * string) :=
  [ ("pothole", "Roads & Highway Dept");
    ("garbage", "Sanitation Dept");
    ("streetlight", "Energy & Power Dept");
    ("water-leakage", "Water Supply Dept");
    ("dirty-toilet", "Health & Hygiene Dept");
    ("other", "General Administration") ].

(** [departmentMap[issueType] || 'General Administration']: every own
    value and every inherited member is truthy. *)
Definition assignedDepartment (issueType : option string) : Obj.value :=
  match Obj.get departmentMap (JS.interpolate issueType) with
  | Some v => v
  | None => Obj.Str "General Administration"
  end.

(** The record built by the create handler. *)
Definition newComplaint (env : Env) (req : Request) (clk : Clock) (rnd : string)
  : Complaint * list event :=
  let '(aiAnalysis, issueType0, description, trace) := visionStep env req in
  let latitude := Body.latitude (body req) in
  let longitude := Body.longitude (body req) in
  let issueType1 := defaultIssueType issueType0 latitude longitude in
  let issueType := smartFallback issueType1 description in
  let dept := assignedDepartment issueType in
  ({| _id := "mem_" +:+ toStringZ 10 (t_id clk);
      complaintId := generateComplaintId (t_gen clk) rnd;
      issueType := issueType;
      description := description;
      department := dept;
      location := {| latitude := JS.parseFloat latitude;
                     longitude := JS.parseFloat longitude;
                     address := JS.or_else (Body.address (body req)) "" |};
      citizenName := JS.or_else (Body.citizenName (body req)) "Anonymous";
      citizenPhone := JS.or_else (Body.citizenPhone (body req)) "";
      citizenEmail := JS.or_else (Body.citizenEmail (body req)) "";
      photo := match file req with
               | Some f => "/uploads/" +:+ filename f
               | None => ""
               end;
      status := "pending";
      priority := JS.or_else (aiAnalysis ≫= ai_priority) "medium";
      assignedTo := dept;
      aiAnalysis := match aiAnalysis with Some _ => true | None => false end;
      createdAt := t_now clk;
      updatedAt := t_now clk;
      resolutionNotes := None;
      resolutionPhoto := None |}, trace).

(** The answers of the create handler. The [catch] branch answers 500.
    The handler is embedded for requests whose form fields each arrive as
    one string, as [Body.t] says: on those no step of the handler throws,
    so the branch is not taken. A field sent twice arrives as an array (a
    description that is an array makes [toLowerCase] throw); such
    requests are outside the embedding. *)
Inductive PostReply : Type :=
  | Post201 (complaintId status : string) (createdAt : Z)
  | Post500 (message : string).

Definition post_code (r : PostReply) : Z :=
  match r with
  | Post201 _ _ _ => 201
  | Post500 _ => 500
  end.

Definition post (env : Env) (req : Request) (clk : Clock) (rnd : string)
  (complaints : list Complaint) : PostReply * list Complaint * list event :=
  let '(complaint, trace) := newComplaint env req clk rnd in
  (Post201 (complaintId complaint) (status complaint) (createdAt complaint),
   (complaints ++ [complaint])%list, trace).

(** *** GET / *)

Module Query.
Record t : Type := {
  status : option string;
  issueType : option string;
  date : option string;
  limit : option string;
  skip : option string
}.
End Query.

(** Dates: [Date_parse] is the engine's parser of date strings ([None] is
    an invalid date) and [tzOffset] the offset in milliseconds of the
    server's local time zone, taken as fixed. *)
Record Locale : Type := {
  Date_parse : string -> option Z;
  tzOffset : Z
}.

Definition msPerDay : Z := 86400000.

(** [d.toDateString()]: the text names the local calendar day, so two of
    them are equal exactly when the days are; it is kept as the day number,
    [None] for the text of an invalid date. *)
Definition toDateString (loc : Locale) (d : option Z) : option Z :=
  match d with
  | Some t => Some ((t + tzOffset loc) / msPerDay)
  | None => None
  end.

Definition option_Z_eqb (a b : option Z) : bool :=
  match a, b with
  | Some x, Some y => x =? y
  | None, None => true
  | _, _ => false
  end.

(** [results.sort((a, b) => new Date(b.createdAt) - new Date(a.createdAt))]:
    the sort of an array is stable, so among the orders that put later
    records first it is the one that keeps records of equal time in
    their former order. *)
Fixpoint insert_desc (x : Complaint) (l : list Complaint) : list Complaint :=
  match l with
  | [] => [x]
  | y :: l' =>
      if createdAt x <? createdAt y then y :: insert_desc x l'
      else x :: l
  end.

Fixpoint sort_desc (l : list Complaint) : list Complaint :=
  match l with
  | [] => []
  | x :: l' => insert_desc x (sort_desc l')
  end.

(** The three filters of the handler, each applied when its query
    parameter is truthy. *)
Definition filter_status (q : Query.t) (results : list Complaint) : list Complaint :=
  if JS.truthy (Query.status q)
  then List.filter (fun c => String.eqb (status c) (JS.interpolate (Query.status q))) results
  else results.

Definition filter_issueType (q : Query.t) (results : list Complaint) : list Complaint :=
  if JS.truthy (Query.issueType q)
  then List.filter (fun c => JS.strict_eq (issueType c) (JS.interpolate (Query.issueType q))) results
  else results.

Definition filter_date (loc : Locale) (q : Query.t) (results : list Complaint) : list Complaint :=
  if JS.truthy (Query.date q) then
    let queryDate := toDateString loc (Date_parse loc (JS.interpolate (Query.date q))) in
    List.filter (fun c => option_Z_eqb (toDateString loc (Some (createdAt c))) queryDate) results
  else results.

Record ListReply : Type := {
  data : list Complaint;
  total : nat;
  limit : option Z;
  skip : option Z
}.

(** [limit = 100] and [skip = 0] stand in for an absent parameter only. *)
Definition get_list (loc : Locale) (q : Query.t) (complaints : list Complaint) : ListReply :=
  let limit := JS.parseInt (default "100" (Query.limit q)) in
  let skip := JS.parseInt (default "0" (Query.skip q)) in
  let results := filter_date loc q (filter_issueType q (filter_status q complaints)) in
  let results := sort_desc results in
  {| data := JS.slice skip (JS.add skip limit) results;
     total := List.length results;
     limit := limit;
     skip := skip |}.

(** *** GET /stats *)

(** A value of [byType]: a count, or the text that adding 1 to an
    inherited member leaves behind. *)
Inductive tally : Type :=
  | Count (n : nat)
  | Text (s : string).

(** [(byType[k] || 0) + 1]: an own count is incremented, an own text (never
    empty) and an inherited member are concatenated with ["1"]. *)
Definition bumped (byType : gmap string tally) (k : string) : tally :=
  match byType !! k with
  | Some (Count n) => Count (n + 1)
  | Some (Text s) => Text (s +:+ "1")
  | None =>
      if Obj.inherited k then Text (Obj.inherited_text k +:+ "1")
      else Count 1
  end.

(** [byType[k] = v]: the setter of [__proto__] drops a primitive; any other
    key becomes an own property. *)
Definition assign (byType : gmap string tally) (k : string) (v : tally) : gmap string tally :=
  if String.eqb k Obj.proto_accessor then byType else <[k := v]> byType.

(** The body of the [forEach]: [byType[c.issueType] = (byType[c.issueType] || 0) + 1]. *)
Definition tallyOne (byType : gmap string tally) (c : Complaint) : gmap string tally :=
  let k := JS.interpolate (issueType c) in
  assign byType k (bumped byType k).

Definition countByType (complaints : list Complaint) : gmap string tally :=
  List.fold_left tallyOne complaints ∅.

Definition count_status (s : string) (complaints : list Complaint) : nat :=
  List.length (List.filter (fun c => String.eqb (status c) s) complaints).

Record Stats : Type := {
  st_total : nat;
  pending : nat;
  inProgress : nat;
  resolved : nat;
  rejected : nat;
  recentCount : nat;
  byType : gmap string tally
}.

Definition get_stats (complaints : list Complaint) : Stats :=
  let total := List.length complaints in
  {| st_total := total;
     pending := count_status "pending" complaints;
     inProgress := count_status "in-progress" complaints;
     resolved := count_status "resolved" complaints;
     rejected := count_status "rejected" complaints;
     recentCount := total;
     byType := countByType complaints |}.

(** *** GET /:id, PATCH /:id, DELETE /:id *)

Definition has_id (id : string) (c : Complaint) : Prop := complaintId c = id.

#[global] Instance has_id_dec id c : Decision (has_id id c).
Proof. unfold has_id. apply _. Defined.

(** [complaints.find(c => c.complaintId === id)]. *)
Definition get_one (id : string) (complaints : list Complaint) : option Complaint :=
  snd <$> list_find (has_id id) complaints.

Module Patch.
Record t : Type := {
  status : option string;
  priority : option string;
  assignedTo : option string;
  resolutionNotes : option string
}.
End Patch.

(** The five conditional assignments and the refresh of [updatedAt]. *)
Definition applyPatch (p : Patch.t) (file : option File) (now : Z) (c : Complaint) : Complaint :=
  {| _id := _id c;
     complaintId := complaintId c;
     issueType := issueType c;
     description := description c;
     department := department c;
     location := location c;
     citizenName := citizenName c;
     citizenPhone := citizenPhone c;
     citizenEmail := citizenEmail c;
     photo := photo c;
     status := if JS.truthy (Patch.status p)
               then JS.interpolate (Patch.status p) else status c;
     priority := if JS.truthy (Patch.priority p)
                 then JS.interpolate (Patch.priority p) else priority c;
     assignedTo := if JS.truthy (Patch.assignedTo p)
                   then Obj.Str (JS.interpolate (Patch.assignedTo p)) else assignedTo c;
     aiAnalysis := aiAnalysis c;
     createdAt := createdAt c;
     updatedAt := now;
     resolutionNotes := if JS.truthy (Patch.resolutionNotes p)
                        then Patch.resolutionNotes p else resolutionNotes c;
     resolutionPhoto := match file with
                        | Some f => Some ("/uploads/" +:+ filename f)
                        | None => resolutionPhoto c
                        end |}.

Inductive PatchReply : Type :=
  | Patch200 (data : Complaint)
  | Patch404.

(** [findIndex] gives the first record with the id; the assignments are
    made in place at that index. *)
Definition patch (id : string) (p : Patch.t) (file : option File) (now : Z)
  (complaints : list Complaint) : PatchReply * list Complaint :=
  match list_find (has_id id) complaints with
  | None => (Patch404, complaints)
  | Some (index, c) =>
      let c' := applyPatch p file now c in
      (Patch200 c', <[index := c']> complaints)
  end.

Inductive DeleteReply : Type :=
  | Delete200
  | Delete404.

(** [complaints.splice(index, 1)] at the first record with the id. *)
Definition delete (id : string) (complaints : list Complaint)
  : DeleteReply * list Complaint :=
  match list_find (has_id id) complaints with
  | None => (Delete404, complaints)
  | Some (index, _) => (Delete200, (List.firstn index complaints ++ List.skipn (S index) complaints)%list)
  end.

End Complaints.

(** ** The complaint schema (models/Complaint.js) *)
Module Schema.

Definition issueType_enum : list string :=
  [ "pothole"; "garbage"; "streetlight"; "water-leakage"; "dirty-toilet"; "other" ].

Definition status_enum : list string :=
  [ "pending"; "in-progress"; "resolved"; "rejected" ].

Definition priority_enum : list string :=
  [ "low"; "medium"; "high"; "critical" ].

Definition in_enum (enum : list string) (s : string) : bool :=
  List.existsb (String.eqb s) enum.

(** [location.latitude] and [location.longitude] are required numbers:
    a record validates only when both hold one. *)
Definition is_number (n : JS.number) : bool :=
  match n with
  | JS.NaN => false
  | _ => true
  end.

End Schema.

(** ** The one-time-passcode routes (server.js) *)
Module Auth.

Record User : Type := {
  phone : string;
  citizenId : string;
  joinedAt : Z;
  isVerified : bool
}.

Record PendingOtp : Type := { otp : string; expires : Z }.

Record State : Type := {
  users : list User;
  otpStore : gmap string PendingOtp
}.

Inductive SendReply : Type :=
  | Send200
  | Send400.

(** [draw] is [Math.floor(1000 + Math.random() * 9000)], a number from 1000
    to 9999. The route is embedded for a phone that is absent or a string;
    a JSON body can hold a phone of another type (a number has no
    [length], so the test of the length lets it through), which is outside
    the embedding. *)
Definition send_otp (phone : option string) (now : Z) (draw : N) (st : State)
  : SendReply * State :=
  if negb (JS.truthy phone) || (String.length (JS.interpolate phone) <? 10)%nat
  then (Send400, st)
  else
    let otp := JS.toStringRadix 10 draw in
    (Send200,
     {| users := users st;
        otpStore := <[JS.interpolate phone := {| otp := otp; expires := now + 5 * 60 * 1000 |}]>
                      (otpStore st) |}).

Inductive VerifyReply : Type :=
  | NoPendingChallenge           (* 400, 'OTP expired or not sent' *)
  | InvalidCode                  (* 400, 'Invalid OTP' *)
  | ExpiredChallenge             (* 400, 'OTP expired' *)
  | LoginSuccessful (user : User) (isNew : bool).

Definition has_phone (p : string) (u : User) : Prop := phone u = p.

#[global] Instance has_phone_dec p u : Decision (has_phone p u).
Proof. unfold has_phone. apply _. Defined.

(** [now] is the clock at the request and [draw] the number drawn for the
    identifier of a new citizen, [Math.floor(1000 + Math.random() * 9000)].
    The tests are made in the order of the handler: no record, then a
    different code, then the expiry. *)
Definition verify_otp (phone : string) (otp : option string) (now : Z) (draw : N)
  (st : State)
  : VerifyReply * State :=
  match otpStore st !! phone with
  | None => (NoPendingChallenge, st)
  | Some record =>
      if negb (JS.strict_eq otp (Auth.otp record)) then (InvalidCode, st)
      else if Auth.expires record <? now then
        (ExpiredChallenge, {| users := users st; otpStore := base.delete phone (otpStore st) |})
      else
        let store := base.delete phone (otpStore st) in
        match list_find (has_phone phone) (users st) with
        | Some (_, user) =>
            (LoginSuccessful user false, {| users := users st; otpStore := store |})
        | None =>
            let user := {| phone := phone;
                           citizenId := "CIT-" +:+ JS.toStringRadix 10 draw;
                           joinedAt := now;
                           isVerified := true |} in
            (LoginSuccessful user true,
             {| users := (users st ++ [user])%list; otpStore := store |})
        end
  end.

End Auth.

(** ** The input sanitizer of the server (server.js) *)
Module Sanitizer.

(** A parsed request value: [null], a primitive (string, number or
    boolean, kept as its text), an array, or an object with its own
    properties in key order. *)
#[warnings="-register-all"]
Inductive value : Type :=
  | Null
  | Primitive (text : string)
  | Array (items : list value)
  | Object (props : list (string * value)).

(** [key.includes('$') || key.includes('.')]. *)
Definition unsafe_key (key : string) : bool :=
  JS.includes key "$" || JS.includes key ".".

(** [sanitize(obj)]: on an object or an array each own key is visited; a
    key with a dollar sign or a dot is deleted with its value, the value of
    any other key is sanitized in turn when it is an object. The keys of an
    array are its indices, which are never deleted. The object is changed
    in place; the function gives it as it is afterwards. *)
Fixpoint sanitize (obj : value) : value :=
  match obj with
  | Null => Null
  | Primitive text => Primitive text
  | Array items => Array (List.map sanitize items)
  | Object props =>
      Object
        ((fix visit (ps : list (string * value)) : list (string * value) :=
            match ps with
            | [] => []
            | (key, v) :: rest =>
                if unsafe_key key then visit rest
                else (key, sanitize v) :: visit rest
            end) props)
  end.

(** The walk over the properties of an object, as a function of its own. *)
Fixpoint visit (ps : list (string * value)) : list (string * value) :=
  match ps with
  | [] => []
  | (key, v) :: rest =>
      if unsafe_key key then visit rest
      else (key, sanitize v) :: visit rest
  end.

(** No key at any depth holds a dollar sign or a dot. *)
Fixpoint clean (v : value) : bool :=
  match v with
  | Null => true
  | Primitive _ => true
  | Array items => List.forallb clean items
  | Object props =>
      (fix all (ps : list (string * value)) : bool :=
         match ps with
         | [] => true
         | (key, x) :: rest => negb (unsafe_key key) && clean x && all rest
         end) props
  end.

Fixpoint clean_props (ps : list (string * value)) : bool :=
  match ps with
  | [] => true
  | (key, x) :: rest => negb (unsafe_key key) && clean x && clean_props rest
  end.

(** The middleware sanitizes [req.body], [req.query] and [req.params],
    each when it is there. *)
Record Req : Type := {
  body : option value;
  query : option value;
  params : option value
}.

Definition middleware (req : Req) : Req :=
  {| body := sanitize <$> body req;
     query := sanitize <$> query req;
     params := sanitize <$> params req |}.

End Sanitizer.

(** ** The specification's wording of the computed parts *)
Module Spec.






(** The department router as a table on the enumeration. *)
Definition departmentOf (issueType : string) : string :=
  if String.eqb issueType "pothole" then "Roads & Highway Dept"
  else if String.eqb issueType "garbage" then "Sanitation Dept"
  else if String.eqb issueType "streetlight" then "Energy & Power Dept"
  else if String.eqb issueType "water-leakage" then "Water Supply Dept"
  else if String.eqb issueType "dirty-toilet" then "Health & Hygiene Dept"
  else "General Administration".

(** The page of a list: [skip] records are passed over, at most [limit] kept. *)
Definition page {A : Type} (skip limit : nat) (l : list A) : list A :=
  List.firstn limit (List.skipn skip l).




(** The format [CIV-TIMESTAMP36-RAND4] of a tracking identifier made at
    [now]: the suffix has exactly four characters of [0-9A-Z]. *)
Definition id_format (now : Z) (id : string) : Prop :=
  exists suffix,
    id = "CIV-" +:+ JS.toUpperCase (Complaints.toStringZ 36 now) +:+ "-" +:+ suffix
    /\ String.length suffix = 4%nat
    /\ Complaints.all_chars Complaints.is_upper36 suffix = true.

(** The three filters of a list together: a filter that is given (and not
    empty) must hold of the record. *)
Definition selected (loc : Complaints.Locale) (q : Complaints.Query.t)
  (c : Complaints.Complaint) : bool :=
  (if JS.truthy (Complaints.Query.status q)
   then String.eqb (Complaints.status c) (JS.interpolate (Complaints.Query.status q))
   else true)
  && (if JS.truthy (Complaints.Query.issueType q)
      then JS.strict_eq (Complaints.issueType c) (JS.interpolate (Complaints.Query.issueType q))
      else true)
  && (if JS.truthy (Complaints.Query.date q)
      then Complaints.option_Z_eqb
             (Complaints.toDateString loc (Some (Complaints.createdAt c)))
             (Complaints.toDateString loc
                (Complaints.Date_parse loc (JS.interpolate (Complaints.Query.date q))))
      else true).




(** A record whose only change is the time of its last update. *)
Definition touched (now : Z) (c : Complaints.Complaint) : Complaints.Complaint :=
  {| Complaints._id := Complaints._id c;
     Complaints.complaintId := Complaints.complaintId c;
     Complaints.issueType := Complaints.issueType c;
     Complaints.description := Complaints.description c;
     Complaints.department := Complaints.department c;
     Complaints.location := Complaints.location c;
     Complaints.citizenName := Complaints.citizenName c;
     Complaints.citizenPhone := Complaints.citizenPhone c;
     Complaints.citizenEmail := Complaints.citizenEmail c;
     Complaints.photo := Complaints.photo c;
     Complaints.status := Complaints.status c;
     Complaints.priority := Complaints.priority c;
     Complaints.assignedTo := Complaints.assignedTo c;
     Complaints.aiAnalysis := Complaints.aiAnalysis c;
     Complaints.createdAt := Complaints.createdAt c;
     Complaints.updatedAt := now;
     Complaints.resolutionNotes := Complaints.resolutionNotes c;
     Complaints.resolutionPhoto := Complaints.resolutionPhoto c |}.

(** The empty patch. *)
Definition emptyPatch : Complaints.Patch.t :=
  {| Complaints.Patch.status := None; Complaints.Patch.priority := None;
     Complaints.Patch.assignedTo := None; Complaints.Patch.resolutionNotes := None |}.

(** The per-type counts of a stats answer: every value of [byType] is a
    count, and the counts add up to [sum_counts]. *)
Definition count_of (v : Complaints.tally) : nat :=
  match v with
  | Complaints.Count n => n
  | Complaints.Text _ => O
  end.

Definition is_count (v : Complaints.tally) : bool :=
  match v with
  | Complaints.Count _ => true
  | Complaints.Text _ => false
  end.

Definition sum_counts (byType : gmap string Complaints.tally) : nat :=
  map_fold (fun _ v acc => (count_of v + acc)%nat) O byType.

Definition all_counts (byType : gmap string Complaints.tally) : Prop :=
  forall k v, byType !! k = Some v -> is_count v = true.

(** A record whose status is in the schema's enumeration. *)
Definition in_status_enum (c : Complaints.Complaint) : bool :=
  Schema.in_enum Schema.status_enum (Complaints.status c).

(** A record whose issue type is not the name of a member of
    [Object.prototype]. *)
Definition own_key (c : Complaints.Complaint) : bool :=
  negb (Obj.inherited (JS.interpolate (Complaints.issueType c))).

(** The sum of the four per-status counts. *)
Definition status_sum (s : Complaints.Stats) : nat :=
  (Complaints.pending s + Complaints.inProgress s
   + Complaints.resolved s + Complaints.rejected s)%nat.

(** The invariant of the statistics of a store: the total is the number
    of stored complaints and the sum of the per-type counts of [byType],
    whose values are all counts; the four per-status counts add up to at
    most the total, and to the total exactly when every stored status is
    in the enumeration. *)
Definition stats_invariant (complaints : list Complaints.Complaint) : Prop :=
  let s := Complaints.get_stats complaints in
  Complaints.st_total s = List.length complaints
  /\ all_counts (Complaints.byType s)
  /\ sum_counts (Complaints.byType s) = Complaints.st_total s
  /\ (status_sum s <= Complaints.st_total s)%nat
  /\ (status_sum s = Complaints.st_total s
      <-> Forall (fun c => in_status_enum c = true) complaints).

(** The answer of the model as it is to be parsed: the code-fence
    markers are stripped, then the white space around. *)
Definition unfenced (text : string) : string :=
  JS.trim (JS.removeAll "```" (JS.removeAll "```json" text)).

(** The adapter's ways of failing on a file: no credential is configured;
    the file cannot be read; the call made with the configured key and the
    content of the file fails; the answer of that call is not JSON. *)
Inductive adapter_fails (env : Complaints.Env) (filePath : string) : Prop :=
  | no_credential :
      JS.truthy (Complaints.GEMINI_API_KEY env) = false -> adapter_fails env filePath
  | unreadable_file :
      Complaints.readFileSync env filePath = None -> adapter_fails env filePath
  | failed_call (image : string) :
      Complaints.readFileSync env filePath = Some image ->
      Complaints.generateContent env
        (JS.interpolate (Complaints.GEMINI_API_KEY env)) image = None ->
      adapter_fails env filePath
  | unparsable_answer (image text : string) :
      Complaints.readFileSync env filePath = Some image ->
      Complaints.generateContent env
        (JS.interpolate (Complaints.GEMINI_API_KEY env)) image = Some text ->
      Complaints.JSON_parse env (unfenced text) = Complaints.SyntaxError ->
      adapter_fails env filePath.

(** The same request without its photo. *)
Definition without_photo (req : Complaints.Request) : Complaints.Request :=
  {| Complaints.body := Complaints.body req; Complaints.file := None |}.

End Spec.

(** ** Sample data *)
Module Samples.

Definition env : Complaints.Env :=
  {| Complaints.GEMINI_API_KEY := None;
     Complaints.readFileSync := fun _ => Some "bytes";
     Complaints.generateContent := fun _ _ => Some "{}";
     Complaints.JSON_parse := fun _ => Complaints.Falsy |}.

Definition form (issueType description latitude longitude : option string)
  : Complaints.Body.t :=
  {| Complaints.Body.issueType := issueType;
     Complaints.Body.description := description;
     Complaints.Body.latitude := latitude;
     Complaints.Body.longitude := longitude;
     Complaints.Body.address := None;
     Complaints.Body.citizenName := None;
     Complaints.Body.citizenPhone := None;
     Complaints.Body.citizenEmail := None |}.

Definition clock (t : Z) : Complaints.Clock :=
  {| Complaints.t_now := t; Complaints.t_id := t; Complaints.t_gen := t |}.

(** The record stored for a request with no photo. *)
Definition stored (issueType description : option string) (t : Z) (rnd : string)
  : Complaints.Complaint :=
  (Complaints.newComplaint env
     {| Complaints.body := form issueType description (Some "12.97") (Some "77.59");
        Complaints.file := None |}
     (clock t) rnd).1.

Definition c1 : Complaints.Complaint :=
  Eval vm_compute in stored (Some "garbage") (Some "overflowing bin") 1700000000000 "0.4fzyo82mvyr".
Definition c2 : Complaints.Complaint :=
  Eval vm_compute in stored None (Some "street lamp is dark") 1700000300000 "0.k2j7qd01xw".
Definition c3 : Complaints.Complaint :=
  Eval vm_compute in stored (Some "pothole") (Some "deep hole") 1700000100000 "0.9zz3a1b2c3".
Definition c4 : Complaints.Complaint :=
  Eval vm_compute in stored (Some "other") (Some "noise at night") 1700000400000 "0.abcd9876".
Definition c5 : Complaints.Complaint :=
  Eval vm_compute in stored (Some "garbage") (Some "plastic on the shore") 1700000200000 "0.x1y2z3w4".

Definition store5 : list Complaints.Complaint := [c1; c2; c3; c4; c5].

(** A request whose issue type is the name of a member of
    [Object.prototype], and the store it leaves. *)
Definition request6 : Complaints.Request :=
  {| Complaints.body :=
       form (Some "constructor") (Some "bench is broken") (Some "12.97") (Some "77.59");
     Complaints.file := None |}.

Definition store6 : list Complaints.Complaint :=
  (Complaints.post env request6 (clock 1700000500000) "0.q7w8e9r0" []).1.2.

Definition locale : Complaints.Locale :=
  {| Complaints.Date_parse := fun _ => None; Complaints.tzOffset := 19800000 |}.




End Samples.

(** Unfolds the appends whose first argument starts with known characters. *)
Ltac simpl_append := unfold String.append in *; fold String.append in *.

(** * Properties *)

Import Complaints.

(** ** Strings *)

Lemma append_nil_l (s : string) : "" +:+ s = s.
Proof. reflexivity. Qed.

Lemma append_cons (x : ascii) (a b : string) : String x a +:+ b = String x (a +:+ b).
Proof. reflexivity. Qed.

Section Strings.

Lemma append_assoc (a b c : string) : (a +:+ b) +:+ c = a +:+ (b +:+ c).
Proof. induction a as [|x a IH]; simpl_append; [reflexivity | now rewrite IH]. Qed.

Lemma append_empty_r (a : string) : a +:+ "" = a.
Proof. induction a as [|x a IH]; simpl_append; [reflexivity | now rewrite IH]. Qed.



Lemma map_string_append (f : ascii -> ascii) (a b : string) :
  JS.map_string f (a +:+ b) = JS.map_string f a +:+ JS.map_string f b.
Proof.
  induction a as [|x a IH]; simpl_append; simpl; simpl_append;
    [reflexivity | now rewrite IH].
Qed.



Lemma lower_char_idem (c : ascii) : JS.lower_char (JS.lower_char c) = JS.lower_char c.
Proof. destruct c as [[] [] [] [] [] [] [] []]; reflexivity. Qed.



End Strings.

(** ** The keyword fallback and the department router *)
Section Fallback.


Lemma defaultIssueType_other (it lat lon : option string) :
  JS.truthy it = false \/ it = Some "other" ->
  defaultIssueType it lat lon = Some "other".
Proof.
  unfold defaultIssueType. intros [Hf | ->].
  - rewrite Hf. cbn [negb orb]. destruct it as [s|]; [| reflexivity].
    simpl in Hf. simpl. destruct (String.eqb s ""); [reflexivity | discriminate].
  - destruct (negb (JS.truthy (Some "other")) || negb (JS.truthy lat)
              || negb (JS.truthy lon)); reflexivity.
Qed.



Lemma append_nonempty (pre mid suf : string) :
  mid <> "" -> pre +:+ mid +:+ suf <> "".
Proof.
  intros Hm E. destruct pre; simpl_append; [| discriminate].
  destruct mid; simpl_append; [contradiction | discriminate].
Qed.



End Fallback.

(** ** Creation: geolocation and the vision step *)
Section Create.

(** C2, as the handler behaves. A latitude or a longitude that holds no
    number (absent, empty or not numeric) does not stop the request: it is
    answered 201 and a record is appended to the store whose coordinates
    are what [parseFloat] gives, [NaN] for the one that holds no number,
    which the schema's required numbers exclude. *)
Theorem missing_geolocation_is_stored (env : Env) (req : Request) (clk : Clock)
    (rnd : string) (complaints : list Complaint) :
  JS.parseFloat (Body.latitude (body req)) = JS.NaN
  \/ JS.parseFloat (Body.longitude (body req)) = JS.NaN ->
  exists r c tr,
    post env req clk rnd complaints = (r, (complaints ++ [c])%list, tr)
    /\ post_code r = 201
    /\ latitude (location c) = JS.parseFloat (Body.latitude (body req))
    /\ longitude (location c) = JS.parseFloat (Body.longitude (body req))
    /\ Schema.is_number (latitude (location c))
       && Schema.is_number (longitude (location c)) = false.
Proof.
  intros Hnan. unfold post.
  destruct (newComplaint env req clk rnd) as [c tr] eqn:E.
  assert (Hl : latitude (location c) = JS.parseFloat (Body.latitude (body req))
               /\ longitude (location c) = JS.parseFloat (Body.longitude (body req))).
  { unfold newComplaint in E. destruct (visionStep env req) as [[[ai it] d] t].
    injection E as <- _. split; reflexivity. }
  destruct Hl as [Hlat Hlon].
  exists (Post201 (complaintId c) (status c) (createdAt c)), c, tr.
  repeat split; try assumption.
  rewrite Hlat, Hlon. destruct Hnan as [-> | ->]; [reflexivity | apply andb_false_r].
Qed.

(** A request with a type and a description and no coordinates. *)
Lemma missing_geolocation_is_stored_witness :
  exists r c tr,
    post Samples.env
      {| body := Samples.form (Some "garbage") (Some "overflowing bin") None None;
         file := None |}
      (Samples.clock 1700000000000) "0.4fzyo82mvyr" [] = (r, [c], tr)
    /\ post_code r = 201
    /\ latitude (location c) = JS.NaN
    /\ longitude (location c) = JS.NaN.
Proof.
  destruct (missing_geolocation_is_stored Samples.env
              {| body := Samples.form (Some "garbage") (Some "overflowing bin") None None;
                 file := None |}
              (Samples.clock 1700000000000) "0.4fzyo82mvyr" [])
    as [r [c [tr [H1 [H2 [H3 [H4 _]]]]]]].
  - left. reflexivity.
  - exists r, c, tr. repeat split; assumption.
Defined.

Lemma adapter_fails_unavailable (env : Env) (filePath : string) :
  Spec.adapter_fails env filePath -> (analyzeImageWithGemini env filePath).1 = None.
Proof.
  intros H. unfold analyzeImageWithGemini.
  destruct (JS.truthy (GEMINI_API_KEY env)) eqn:Hk; cbn [negb]; [| reflexivity].
  destruct H as [H | H | image Hr Hg | image text Hr Hg Hp].
  - congruence.
  - now rewrite H.
  - now rewrite Hr, Hg.
  - rewrite Hr, Hg. unfold Spec.unfenced in Hp. now rewrite Hp.
Qed.

(** C6. When the adapter fails on the photo of a request (no credential,
    an unreadable file, a failed call, or an answer of the model that is
    not JSON once its code fences are stripped), it returns nothing (with
    no credential, at once and without any effect: no file read, no
    network call), the request is still answered 201, and the stored
    issue type, description, priority and department are those of the
    same request sent without a photo. *)
Theorem vision_failure_not_fatal (env : Env) (req : Request) (f : File) (clk : Clock)
    (rnd : string) (complaints : list Complaint) :
  file req = Some f ->
  Spec.adapter_fails env (path f) ->
  (analyzeImageWithGemini env (path f)).1 = None
  /\ (JS.truthy (GEMINI_API_KEY env) = false ->
      analyzeImageWithGemini env (path f) = (None, []))
  /\ exists r c r0 c0 tr,
       post env req clk rnd complaints = (r, (complaints ++ [c])%list, tr)
       /\ post env (Spec.without_photo req) clk rnd complaints = (r0, (complaints ++ [c0])%list, [])
       /\ post_code r = 201
       /\ issueType c = issueType c0
       /\ description c = description c0
       /\ description c = Body.description (body req)
       /\ priority c = priority c0
       /\ priority c = "medium"
       /\ department c = department c0
       /\ aiAnalysis c = false.
Proof.
  intros Hf Hfail.
  pose proof (adapter_fails_unavailable _ _ Hfail) as Hnone.
  split; [exact Hnone |]. split.
  { intros Hk. unfold analyzeImageWithGemini. now rewrite Hk. }
  unfold post, newComplaint, visionStep, Spec.without_photo. rewrite Hf. cbn [file body].
  destruct (analyzeImageWithGemini env (path f)) as [ai tr]. cbn [fst] in Hnone. subst ai.
  do 5 eexists. repeat split.
Qed.

(** A photo sent with no credential configured, and a photo whose
    analysis comes back as text that is not JSON, to a parser that reads
    other texts. *)
Lemma vision_failure_not_fatal_witness :
  let file := {| path := "public/uploads/1-2.jpg"; filename := "1-2.jpg" |} in
  let req := {| body := Samples.form None (Some "street lamp is dark")
                          (Some "12.97") (Some "77.59");
                file := Some file |} in
  let offline := {| GEMINI_API_KEY := None; readFileSync := fun _ => Some "bytes";
                    generateContent := fun _ _ => Some "{}";
                    JSON_parse := fun _ => Falsy |} in
  let garbled := {| GEMINI_API_KEY := Some "key"; readFileSync := fun _ => Some "bytes";
                    generateContent := fun _ _ => Some "```json I see a road ```";
                    JSON_parse := fun s =>
                      if String.eqb s "{}"
                      then Truthy {| ai_issueType := Some "pothole";
                                     ai_priority := Some "critical";
                                     ai_description := None |}
                      else SyntaxError |} in
  analyzeImageWithGemini offline (path file) = (None, [])
  /\ (analyzeImageWithGemini garbled (path file)).1 = None
  /\ issueType (newComplaint garbled req (Samples.clock 1700000000000) "0.4fzyo82mvyr").1
     = Some "streetlight"
  /\ priority (newComplaint garbled req (Samples.clock 1700000000000) "0.4fzyo82mvyr").1
     = "medium".
Proof.
  intros file req offline garbled.
  destruct (vision_failure_not_fatal offline req file (Samples.clock 1700000000000)
              "0.4fzyo82mvyr" [] eq_refl) as [_ [Hoff _]].
  { apply Spec.no_credential. reflexivity. }
  destruct (vision_failure_not_fatal garbled req file (Samples.clock 1700000000000)
              "0.4fzyo82mvyr" [] eq_refl) as [Hnone [_ [r [c [r0 [c0 [tr H]]]]]]].
  { apply (Spec.unparsable_answer garbled (path file) "bytes" "```json I see a road ```");
      reflexivity. }
  destruct H as [Hp [_ [_ [_ [_ [_ [_ [Hprio _]]]]]]]].
  split; [apply Hoff; reflexivity |]. split; [exact Hnone |].
  assert (Hc : (newComplaint garbled req (Samples.clock 1700000000000) "0.4fzyo82mvyr").1 = c).
  { unfold post in Hp.
    destruct (newComplaint garbled req (Samples.clock 1700000000000) "0.4fzyo82mvyr")
      as [c' tr'].
    injection Hp as _ Hl _. exact Hl. }
  rewrite Hc. split; [| exact Hprio].
  rewrite <- Hc. reflexivity.
Defined.

End Create.

(** ** Updates *)
Section Update.

Lemma patch_found (id : string) (p : Patch.t) (file : option File) (now : Z)
    (complaints : list Complaint) (index : nat) (c : Complaint) :
  list_find (has_id id) complaints = Some (index, c) ->
  patch id p file now complaints
  = (Patch200 (applyPatch p file now c), <[index := applyPatch p file now c]> complaints).
Proof. intros H. unfold patch. now rewrite H. Qed.

Lemma truthy_none_or_empty (v : option string) :
  v = None \/ v = Some "" -> JS.truthy v = false.
Proof. intros [-> | ->]; reflexivity. Qed.

(** C3, as the handler behaves. A status outside the schema's enumeration
    is not rejected: the update is answered 200 and the status is stored
    as given. *)
Theorem unknown_status_is_stored (id : string) (p : Patch.t) (file : option File)
    (now : Z) (complaints : list Complaint) (index : nat) (c : Complaint) (s : string) :
  list_find (has_id id) complaints = Some (index, c) ->
  Patch.status p = Some s ->
  s <> "" ->
  Schema.in_enum Schema.status_enum s = false ->
  exists c',
    patch id p file now complaints = (Patch200 c', <[index := c']> complaints)
    /\ (<[index := c']> complaints) !! index = Some c'
    /\ status c' = s
    /\ Schema.in_enum Schema.status_enum (status c') = false.
Proof.
  intros Hfind Hs Hne Henum.
  exists (applyPatch p file now c).
  assert (Hst : status (applyPatch p file now c) = s).
  { cbn [applyPatch status]. rewrite Hs. simpl.
    destruct (String.eqb_spec s ""); [contradiction | reflexivity]. }
  split; [now apply patch_found |]. split.
  - apply list_lookup_insert_eq. apply list_find_Some in Hfind as [Hl _].
    now apply lookup_lt_Some in Hl.
  - split; [exact Hst | now rewrite Hst].
Qed.

Lemma unknown_status_is_stored_witness :
  exists c',
    patch (complaintId Samples.c3)
      {| Patch.status := Some "banana"; Patch.priority := None;
         Patch.assignedTo := None; Patch.resolutionNotes := None |}
      None 1700000999000 Samples.store5
    = (Patch200 c', <[2%nat := c']> Samples.store5)
    /\ status c' = "banana".
Proof.
  destruct (unknown_status_is_stored (complaintId Samples.c3)
              {| Patch.status := Some "banana"; Patch.priority := None;
                 Patch.assignedTo := None; Patch.resolutionNotes := None |}
              None 1700000999000 Samples.store5 2%nat Samples.c3 "banana")
    as [c' [H1 [_ [H3 _]]]].
  - vm_compute. reflexivity.
  - reflexivity.
  - discriminate.
  - reflexivity.
  - exists c'. split; assumption.
Defined.

(** C5. An update of a stored complaint answers with the changed record
    and puts it in place of the old one; every other record of the store
    is as before; the time of the last update is the time of the request;
    the fields that no patch can name are unchanged; a field that the
    patch leaves out is unchanged; and with the empty patch the record is
    the old one but for the time of its last update. *)
Theorem update_frame (id : string) (p : Patch.t) (file : option File) (now : Z)
    (complaints : list Complaint) (index : nat) (c : Complaint) :
  list_find (has_id id) complaints = Some (index, c) ->
  exists c',
    patch id p file now complaints = (Patch200 c', <[index := c']> complaints)
    /\ (<[index := c']> complaints) !! index = Some c'
    /\ (forall j, j <> index -> (<[index := c']> complaints) !! j = complaints !! j)
    /\ List.length (<[index := c']> complaints) = List.length complaints
    /\ updatedAt c' = now
    /\ (_id c' = _id c /\ complaintId c' = complaintId c /\ issueType c' = issueType c
        /\ description c' = description c /\ department c' = department c
        /\ location c' = location c /\ citizenName c' = citizenName c
        /\ citizenPhone c' = citizenPhone c /\ citizenEmail c' = citizenEmail c
        /\ photo c' = photo c /\ aiAnalysis c' = aiAnalysis c
        /\ createdAt c' = createdAt c)
    /\ (Patch.status p = None -> status c' = status c)
    /\ (Patch.priority p = None -> priority c' = priority c)
    /\ (Patch.assignedTo p = None -> assignedTo c' = assignedTo c)
    /\ (Patch.resolutionNotes p = None -> resolutionNotes c' = resolutionNotes c)
    /\ (file = None -> resolutionPhoto c' = resolutionPhoto c)
    /\ (p = Spec.emptyPatch -> file = None -> c' = Spec.touched now c).
Proof.
  intros Hfind. exists (applyPatch p file now c).
  split; [now apply patch_found |]. split.
  { apply list_lookup_insert_eq. apply list_find_Some in Hfind as [Hl _].
    now apply lookup_lt_Some in Hl. }
  split. { intros j Hj. now apply list_lookup_insert_ne. }
  split. { apply length_insert. }
  split; [reflexivity |]. split; [repeat split |].
  repeat split.
  - intros H. cbn [applyPatch status]. now rewrite H.
  - intros H. cbn [applyPatch priority]. now rewrite H.
  - intros H. cbn [applyPatch assignedTo]. now rewrite H.
  - intros H. cbn [applyPatch resolutionNotes]. now rewrite H.
  - intros H. cbn [applyPatch resolutionPhoto]. now rewrite H.
  - intros -> ->. reflexivity.
Qed.

Lemma update_frame_witness :
  exists c',
    patch (complaintId Samples.c3) Spec.emptyPatch None 1700000999000 Samples.store5
    = (Patch200 c', <[2%nat := c']> Samples.store5)
    /\ c' = Spec.touched 1700000999000 Samples.c3.
Proof.
  destruct (update_frame (complaintId Samples.c3) Spec.emptyPatch None 1700000999000
              Samples.store5 2%nat Samples.c3) as [c' [H1 H2]].
  - vm_compute. reflexivity.
  - exists c'. split; [exact H1 |].
    apply H2; reflexivity.
Defined.

(** C9. In an update, a patch field that holds the empty string is not
    applied: the stored status, priority, assignee or resolution notes
    are kept; and after any update one of these fields is empty only if
    it was empty before. *)
Theorem empty_patch_fields_ignored (id : string) (p : Patch.t) (file : option File)
    (now : Z) (complaints : list Complaint) (index : nat) (c : Complaint) :
  list_find (has_id id) complaints = Some (index, c) ->
  exists c',
    patch id p file now complaints = (Patch200 c', <[index := c']> complaints)
    /\ (Patch.status p = Some "" -> status c' = status c)
    /\ (Patch.priority p = Some "" -> priority c' = priority c)
    /\ (Patch.assignedTo p = Some "" -> assignedTo c' = assignedTo c)
    /\ (Patch.resolutionNotes p = Some "" -> resolutionNotes c' = resolutionNotes c)
    /\ (status c' = "" -> status c = "")
    /\ (priority c' = "" -> priority c = "")
    /\ (assignedTo c' = Obj.Str "" -> assignedTo c = Obj.Str "")
    /\ (resolutionNotes c' = Some "" -> resolutionNotes c = Some "").
Proof.
  intros Hfind. exists (applyPatch p file now c).
  split; [now apply patch_found |].
  cbn [applyPatch status priority assignedTo resolutionNotes].
  repeat split; try (intros ->; reflexivity).
  - destruct (Patch.status p) as [s|]; simpl; [| tauto].
    destruct (String.eqb_spec s ""); simpl; [tauto | congruence].
  - destruct (Patch.priority p) as [s|]; simpl; [| tauto].
    destruct (String.eqb_spec s ""); simpl; [tauto | congruence].
  - destruct (Patch.assignedTo p) as [s|]; simpl; [| tauto].
    destruct (String.eqb_spec s ""); simpl; [tauto | congruence].
  - destruct (Patch.resolutionNotes p) as [s|]; simpl; [| tauto].
    destruct (String.eqb_spec s ""); simpl; [tauto | congruence].
Qed.

Lemma empty_patch_fields_ignored_witness :
  exists c',
    patch (complaintId Samples.c3)
      {| Patch.status := Some ""; Patch.priority := Some "high";
         Patch.assignedTo := Some ""; Patch.resolutionNotes := Some "" |}
      None 1700000999000 Samples.store5
    = (Patch200 c', <[2%nat := c']> Samples.store5)
    /\ status c' = status Samples.c3.
Proof.
  destruct (empty_patch_fields_ignored (complaintId Samples.c3)
              {| Patch.status := Some ""; Patch.priority := Some "high";
                 Patch.assignedTo := Some ""; Patch.resolutionNotes := Some "" |}
              None 1700000999000 Samples.store5 2%nat Samples.c3)
    as [c' [H1 [H2 _]]].
  - vm_compute. reflexivity.
  - exists c'. split; [exact H1 | apply H2; reflexivity].
Defined.

End Update.

(** ** One-time passcodes *)
Section Otp.

Import Auth.

Lemma verify_no_record (phone : string) (otp : option string) (now : Z) (draw : N)
    (st : State) :
  otpStore st !! phone = None ->
  verify_otp phone otp now draw st = (NoPendingChallenge, st).
Proof. intros H. unfold verify_otp. now rewrite H. Qed.

Lemma strict_eq_true (v : option string) (s : string) :
  JS.strict_eq v s = true <-> v = Some s.
Proof.
  destruct v as [t|]; simpl.
  - rewrite String.eqb_eq. split; congruence.
  - split; discriminate.
Qed.

Lemma verify_mismatch (phone : string) (otp : option string) (now : Z) (draw : N)
    (st : State) (record : PendingOtp) :
  otpStore st !! phone = Some record ->
  otp <> Some (Auth.otp record) ->
  verify_otp phone otp now draw st = (InvalidCode, st).
Proof.
  intros H Hne. unfold verify_otp. rewrite H.
  destruct (JS.strict_eq otp (Auth.otp record)) eqn:E; [| reflexivity].
  apply strict_eq_true in E. contradiction.
Qed.

Lemma verify_in_time (phone : string) (now : Z) (draw : N) (st : State)
    (record : PendingOtp) :
  otpStore st !! phone = Some record ->
  now <= expires record ->
  exists user isNew,
    verify_otp phone (Some (Auth.otp record)) now draw st
    = (LoginSuccessful user isNew,
       {| users := if isNew then (users st ++ [user])%list else users st;
          otpStore := base.delete phone (otpStore st) |})
    /\ (isNew = true <-> list_find (has_phone phone) (users st) = None).
Proof.
  intros H Hle. unfold verify_otp. rewrite H.
  assert (E : JS.strict_eq (Some (Auth.otp record)) (Auth.otp record) = true)
    by now apply strict_eq_true.
  rewrite E. cbn [negb].
  destruct (Z.ltb_spec (expires record) now) as [Hlt | _]; [lia |].
  destruct (list_find (has_phone phone) (users st)) as [[i u]|] eqn:Hu.
  - exists u, false. split; [reflexivity |]. split; discriminate.
  - eexists _, true. split; [reflexivity |]. split; reflexivity.
Qed.

(** C4. While a challenge is pending for a phone: a different code is
    answered [InvalidCode] and leaves the store as it is; the right code
    after the expiry is answered [ExpiredChallenge] and deletes the
    challenge; the right code in time succeeds and deletes the challenge,
    so that any further attempt for the phone is answered
    [NoPendingChallenge]; and the right code in time still succeeds after
    an attempt with a different code. *)
Theorem otp_challenge_consumption (st : State) (phone : string) (record : PendingOtp) :
  otpStore st !! phone = Some record ->
  (forall otp now draw,
      otp <> Some (Auth.otp record) ->
      verify_otp phone otp now draw st = (InvalidCode, st))
  /\ (forall now draw,
        expires record < now ->
        verify_otp phone (Some (Auth.otp record)) now draw st
        = (ExpiredChallenge,
           {| users := users st; otpStore := base.delete phone (otpStore st) |}))
  /\ (forall now draw,
        now <= expires record ->
        exists user isNew st',
          verify_otp phone (Some (Auth.otp record)) now draw st
          = (LoginSuccessful user isNew, st')
          /\ otpStore st' = base.delete phone (otpStore st)
          /\ otpStore st' !! phone = None
          /\ (isNew = true <-> list_find (has_phone phone) (users st) = None)
          /\ forall otp' now' draw',
               verify_otp phone otp' now' draw' st' = (NoPendingChallenge, st'))
  /\ (forall wrong now1 draw1 now2 draw2,
        wrong <> Some (Auth.otp record) ->
        now2 <= expires record ->
        exists user isNew st',
          verify_otp phone (Some (Auth.otp record)) now2 draw2
            (verify_otp phone wrong now1 draw1 st).2
          = (LoginSuccessful user isNew, st')).
Proof.
  intros H. split; [| split; [| split]].
  - intros otp now draw Hne. now apply (verify_mismatch _ _ _ _ _ record).
  - intros now draw Hlt. unfold verify_otp. rewrite H.
    assert (E : JS.strict_eq (Some (Auth.otp record)) (Auth.otp record) = true)
      by now apply strict_eq_true.
    rewrite E. cbn [negb].
    destruct (Z.ltb_spec (expires record) now) as [_ | Hge]; [reflexivity | lia].
  - intros now draw Hle.
    destruct (verify_in_time phone now draw st record H Hle) as [u [b [Hv Hnew]]].
    eexists u, b, _. split; [exact Hv |]. cbn [otpStore].
    split; [reflexivity |]. split; [apply lookup_delete_eq |]. split; [exact Hnew |].
    intros otp' now' draw'. apply verify_no_record. cbn [otpStore].
    apply lookup_delete_eq.
  - intros wrong now1 draw1 now2 draw2 Hne Hle.
    rewrite (verify_mismatch _ _ now1 draw1 _ record H Hne). cbn [snd].
    destruct (verify_in_time phone now2 draw2 st record H Hle) as [u [b [Hv _]]].
    eexists u, b, _. exact Hv.
Qed.

(** A phone that asked for a code at time 1000 and drew 4821: a wrong
    code, then the right one within five minutes. *)
Lemma otp_challenge_consumption_witness :
  let st := (send_otp (Some "9876543210") 1000 4821 {| users := []; otpStore := ∅ |}).2 in
  verify_otp "9876543210" (Some "0000") 2000 7000 st = (InvalidCode, st)
  /\ exists user isNew st',
       verify_otp "9876543210" (Some "4821") 3000 7000
         (verify_otp "9876543210" (Some "0000") 2000 7000 st).2
       = (LoginSuccessful user isNew, st').
Proof.
  intros st.
  assert (H : otpStore st !! "9876543210" = Some {| otp := "4821"; expires := 301000 |}).
  { unfold st. cbn [send_otp snd]. apply lookup_insert_eq. }
  destruct (otp_challenge_consumption st "9876543210" _ H) as [H1 [_ [_ H4]]].
  split.
  - apply H1. discriminate.
  - apply (H4 (Some "0000") 2000 7000%N 3000 7000%N); [discriminate | cbn; lia].
Defined.

End Otp.

(** ** Listing *)
Section Listing.

Lemma filter_filter_andb {A : Type} (f g : A -> bool) (l : list A) :
  List.filter f (List.filter g l) = List.filter (fun x => g x && f x) l.
Proof.
  induction l as [|x l IH]; [reflexivity |]. simpl.
  destruct (g x); simpl; [destruct (f x) |]; now rewrite IH.
Qed.

Lemma filter_true {A : Type} (l : list A) : List.filter (fun _ => true) l = l.
Proof. induction l as [|x l IH]; [reflexivity |]. simpl. now rewrite IH. Qed.

Lemma filters_selected (loc : Locale) (q : Query.t) (l : list Complaint) :
  filter_date loc q (filter_issueType q (filter_status q l))
  = List.filter (Spec.selected loc q) l.
Proof.
  unfold filter_date, filter_issueType, filter_status, Spec.selected.
  destruct (JS.truthy (Query.status q)), (JS.truthy (Query.issueType q)),
    (JS.truthy (Query.date q));
    rewrite ?filter_filter_andb;
    first [ apply List.filter_ext; intros c; cbn [andb];
            rewrite ?andb_true_r, ?andb_assoc; reflexivity
          | symmetry; apply filter_true ].
Qed.

Lemma insert_desc_perm (x : Complaint) (l : list Complaint) :
  Permutation (x :: l) (insert_desc x l).
Proof.
  induction l as [|y l IH]; simpl; [reflexivity |].
  destruct (createdAt x <? createdAt y); [| reflexivity].
  rewrite perm_swap. now constructor.
Qed.

Lemma sort_desc_perm (l : list Complaint) : Permutation (sort_desc l) l.
Proof.
  induction l as [|x l IH]; simpl; [reflexivity |].
  rewrite <- insert_desc_perm. now constructor.
Qed.



Lemma slice_page {A : Type} (n m : nat) (l : list A) :
  JS.slice (Some (Z.of_nat n)) (JS.add (Some (Z.of_nat n)) (Some (Z.of_nat m))) l
  = Spec.page n m l.
Proof.
  unfold JS.slice, JS.add, JS.clamp_index, Spec.page.
  destruct (Z.ltb_spec (Z.of_nat n) 0) as [? | _]; [lia |].
  destruct (Z.ltb_spec (Z.of_nat n + Z.of_nat m) 0) as [? | _]; [lia |].
  destruct (Nat.le_gt_cases (List.length l) n) as [Hge | Hlt].
  - rewrite Z.min_r by lia. rewrite Z.min_r by lia.
    rewrite Nat2Z.id, Z.sub_diag. rewrite (List.skipn_all2 l Hge).
    rewrite List.skipn_all. now rewrite !List.firstn_nil.
  - rewrite (Z.min_l (Z.of_nat n)) by lia. rewrite Nat2Z.id.
    destruct (Nat.le_gt_cases (n + m) (List.length l)) as [Hfit | Hcut].
    + rewrite Z.min_l by lia. f_equal. lia.
    + rewrite Z.min_r by lia.
      assert (Hlen : List.length (List.skipn n l) = (List.length l - n)%nat)
        by apply List.length_skipn.
      rewrite (List.firstn_all2 (n := m)) by lia.
      apply List.firstn_all2. lia.
Qed.


End Listing.

(** ** Tracking identifiers *)
Section Identifier.

Lemma length_append (a b : string) :
  String.length (a +:+ b) = (String.length a + String.length b)%nat.
Proof.
  induction a as [|x a IH]; simpl_append; [reflexivity |]. simpl. now rewrite IH.
Qed.

Lemma length_map_string (f : ascii -> ascii) (s : string) :
  String.length (JS.map_string f s) = String.length s.
Proof. induction s as [|c s IH]; [reflexivity |]. simpl. now rewrite IH. Qed.

Lemma length_take (n : nat) (s : string) :
  String.length (JS.take n s) = Nat.min n (String.length s).
Proof.
  revert s. induction n as [|n IH]; intros s; [reflexivity |].
  destruct s as [|c s]; [reflexivity |]. simpl. now rewrite IH.
Qed.

Lemma all_chars_take (p : ascii -> bool) (n : nat) (s : string) :
  all_chars p s = true -> all_chars p (JS.take n s) = true.
Proof.
  revert s. induction n as [|n IH]; intros s H; [reflexivity |].
  destruct s as [|c s]; [reflexivity |]. simpl in *.
  apply andb_true_iff in H as [Hc Hs]. now rewrite Hc, IH.
Qed.

Lemma all_chars_append (p : ascii -> bool) (a b : string) :
  all_chars p (a +:+ b) = all_chars p a && all_chars p b.
Proof.
  induction a as [|x a IH]; simpl_append; [reflexivity |]. simpl.
  now rewrite IH, andb_assoc.
Qed.

Lemma upper_char_digit36 (c : ascii) :
  is_digit36 c = true -> is_upper36 (JS.upper_char c) = true.
Proof. destruct c as [[] [] [] [] [] [] [] []]; vm_compute; congruence. Qed.

Lemma all_chars_upper (s : string) :
  all_chars is_digit36 s = true -> all_chars is_upper36 (JS.toUpperCase s) = true.
Proof.
  induction s as [|c s IH]; [reflexivity |]. unfold JS.toUpperCase in *. simpl.
  intros H. apply andb_true_iff in H as [Hc Hs].
  now rewrite (upper_char_digit36 c Hc), IH.
Qed.

(** The digit characters read back as their values. *)
Lemma digit_char_value (d : N) :
  (d < 36)%N ->
  JS.digit_value (JS.upper_char (JS.digit_char d)) = Some d
  /\ is_upper36 (JS.upper_char (JS.digit_char d)) = true.
Proof.
  intros Hd. rewrite <- (N2Nat.id d). assert (Hk : (N.to_nat d < 36)%nat) by lia.
  revert Hk. generalize (N.to_nat d). intros k Hk.
  do 36 (destruct k as [|k]; [vm_compute; split; reflexivity |]). lia.
Qed.

Lemma read_radix_append (radix a : N) (s1 s2 : string) :
  JS.read_radix radix a (s1 +:+ s2)
  = match JS.read_radix radix a s1 with
    | Some v => JS.read_radix radix v s2
    | None => None
    end.
Proof.
  revert a. induction s1 as [|c s1 IH]; intros a; simpl_append; [reflexivity |].
  simpl. destruct (JS.digit_value c) as [d|]; [| reflexivity].
  destruct (d <? radix)%N; [apply IH | reflexivity].
Qed.

(** With enough fuel the digits pushed by [radix_digits] are the base-36
    numeral of the number: in upper case they read back as it. *)
Lemma radix_digits_36 (fuel : nat) (n : N) (acc : string) :
  (n < 2 ^ N.of_nat fuel)%N ->
  exists ds,
    JS.radix_digits fuel 36 n acc = ds +:+ acc
    /\ (forall a, JS.read_radix 36 a (JS.toUpperCase ds)
                  = Some (a * 36 ^ N.of_nat (String.length ds) + n)%N)
    /\ all_chars is_upper36 (JS.toUpperCase ds) = true
    /\ (fuel <> O -> ds <> "").
Proof.
  revert n acc. induction fuel as [|f IH]; intros n acc Hn.
  - exists "". change (2 ^ N.of_nat 0)%N with 1%N in Hn.
    assert (n = 0%N) by lia. subst n.
    repeat split; try reflexivity; [| congruence].
    intros a. simpl. f_equal. lia.
  - cbn [JS.radix_digits].
    assert (Hmod : (n mod 36 < 36)%N) by (apply N.mod_lt; lia).
    destruct (digit_char_value _ Hmod) as [Hval Hup].
    pose proof (N.div_mod n 36 ltac:(lia)) as Hdm.
    destruct (N.eqb_spec (n / 36) 0) as [Hq | Hq].
    + exists (String (JS.digit_char (n mod 36)) "").
      repeat split; try reflexivity.
      * intros a. unfold JS.toUpperCase. simpl. rewrite Hval.
        destruct (N.ltb_spec (n mod 36) 36) as [_ | ?]; [| lia].
        f_equal. change (N.of_nat 1) with 1%N. rewrite N.pow_1_r. lia.
      * unfold JS.toUpperCase. simpl. now rewrite Hup.
      * discriminate.
    + assert (Hlt : (n / 36 < 2 ^ N.of_nat f)%N).
      { apply N.Div0.div_lt_upper_bound.
        rewrite Nat2N.inj_succ, N.pow_succ_r' in Hn. lia. }
      destruct (IH (n / 36)%N (String (JS.digit_char (n mod 36)) acc) Hlt)
        as [ds [Hds [Hread [Hall _]]]].
      exists (ds +:+ String (JS.digit_char (n mod 36)) "").
      split; [| split; [| split]].
      * rewrite Hds, append_assoc. reflexivity.
      * intros a. unfold JS.toUpperCase in *. rewrite map_string_append.
        rewrite read_radix_append, Hread. simpl. rewrite Hval.
        destruct (N.ltb_spec (n mod 36) 36) as [_ | ?]; [| lia].
        f_equal. rewrite length_append. simpl.
        rewrite Nat2N.inj_add. change (N.of_nat 1) with 1%N.
        rewrite N.pow_add_r, N.pow_1_r. lia.
      * unfold JS.toUpperCase in *. rewrite map_string_append, all_chars_append, Hall.
        simpl. now rewrite Hup.
      * intros _ E. destruct ds; simpl_append; discriminate.
Qed.

Lemma pos_lt_pow_size (p : positive) :
  (N.pos p < 2 ^ N.of_nat (Pos.size_nat p))%N.
Proof.
  induction p as [p IH | p IH |]; cbn [Pos.size_nat];
    rewrite Nat2N.inj_succ, N.pow_succ_r'; lia.
Qed.

Lemma toStringRadix_36 (n : N) :
  JS.read_radix 36 0 (JS.toUpperCase (JS.toStringRadix 36 n)) = Some n
  /\ all_chars is_upper36 (JS.toUpperCase (JS.toStringRadix 36 n)) = true
  /\ JS.toUpperCase (JS.toStringRadix 36 n) <> "".
Proof.
  unfold JS.toStringRadix.
  assert (Hn : (n < 2 ^ N.of_nat (S (N.size_nat n)))%N).
  { rewrite Nat2N.inj_succ, N.pow_succ_r'.
    assert (n < 2 ^ N.of_nat (N.size_nat n))%N; [| lia].
    destruct n as [|p]; [reflexivity | apply pos_lt_pow_size]. }
  destruct (radix_digits_36 _ n "" Hn) as [ds [Hds [Hread [Hall Hne]]]].
  rewrite Hds, append_empty_r. split; [| split].
  - rewrite Hread. f_equal; lia.
  - exact Hall.
  - intros E. apply Hne; [discriminate |].
    destruct ds; [reflexivity | discriminate].
Qed.

(** C8 at a draw of one half. The draw prints as [0.i] in base 36, so the
    four characters asked for by [substring(2, 6)] are not there: the
    suffix of the identifier is the single character [I], and the
    identifier does not have the format [CIV-TIMESTAMP36-RAND4]. *)
Lemma complaint_id_suffix_short :
  unit_radix36 "0.i" = true
  /\ generateComplaintId 1700000000000 "0.i" = "CIV-LOYW3V28-I"
  /\ ~ Spec.id_format 1700000000000 (generateComplaintId 1700000000000 "0.i").
Proof.
  split; [reflexivity |]. split; [vm_compute; reflexivity |].
  intros [suffix [E [L _]]].
  apply (f_equal String.length) in E.
  rewrite !length_append, L in E. vm_compute in E. discriminate.
Qed.

(** What the identifier does have for every draw: it is [CIV], a hyphen,
    the clock reading in base 36 and upper case (a numeral of [0-9A-Z]
    that reads back as the reading), a hyphen, and the first four base-36
    digits that the draw prints after the point, in upper case: four
    characters when the draw prints at least four, fewer otherwise. *)
Theorem complaint_id_format (now : Z) (rnd : string) :
  0 <= now ->
  unit_radix36 rnd = true ->
  exists timestamp suffix,
    generateComplaintId now rnd = "CIV-" +:+ timestamp +:+ "-" +:+ suffix
    /\ timestamp = JS.toUpperCase (toStringZ 36 now)
    /\ timestamp <> ""
    /\ all_chars is_upper36 timestamp = true
    /\ JS.read_radix 36 0 timestamp = Some (Z.to_N now)
    /\ suffix = JS.toUpperCase (JS.take 4 (JS.drop 2 rnd))
    /\ (String.length suffix <= 4)%nat
    /\ all_chars is_upper36 suffix = true
    /\ (4 <= String.length (JS.drop 2 rnd) -> String.length suffix = 4)%nat.
Proof.
  intros Hnow Hrnd.
  exists (JS.toUpperCase (toStringZ 36 now)), (JS.toUpperCase (JS.take 4 (JS.drop 2 rnd))).
  assert (Hts : toStringZ 36 now = JS.toStringRadix 36 (Z.to_N now)).
  { unfold toStringZ. destruct (Z.ltb_spec now 0) as [? | _]; [lia |].
    f_equal. lia. }
  destruct (toStringRadix_36 (Z.to_N now)) as [Hread [Hall Hne]].
  assert (Hlen : String.length (JS.toUpperCase (JS.take 4 (JS.drop 2 rnd)))
                 = Nat.min 4 (String.length (JS.drop 2 rnd))).
  { unfold JS.toUpperCase. now rewrite length_map_string, length_take. }
  split; [reflexivity |]. split; [reflexivity |]. rewrite Hts.
  split; [exact Hne |]. split; [exact Hall |]. split; [exact Hread |].
  split; [reflexivity |]. split; [lia |]. split; [| lia].
  apply all_chars_upper, all_chars_take.
  unfold unit_radix36 in Hrnd. apply orb_true_iff in Hrnd as [H0 | H1].
  - apply String.eqb_eq in H0. subst rnd. reflexivity.
  - apply andb_true_iff in H1 as [_ H1]. exact H1.
Qed.

Lemma complaint_id_format_witness :
  exists timestamp suffix,
    generateComplaintId 1700000000000 "0.4fzyo82mvyr"
    = "CIV-" +:+ timestamp +:+ "-" +:+ suffix
    /\ timestamp = "LOYW3V28" /\ suffix = "4FZY".
Proof.
  destruct (complaint_id_format 1700000000000 "0.4fzyo82mvyr")
    as [timestamp [suffix [H1 [H2 [_ [_ [_ [H3 _]]]]]]]].
  - lia.
  - reflexivity.
  - exists timestamp, suffix. split; [exact H1 |].
    split; [rewrite H2 | rewrite H3]; vm_compute; reflexivity.
Defined.

End Identifier.

(** ** Statistics *)
Section Statistics.

Lemma count_status_cons (s : string) (c : Complaint) (l : list Complaint) :
  count_status s (c :: l)
  = ((if String.eqb (status c) s then 1 else 0) + count_status s l)%nat.
Proof. unfold count_status. simpl. destruct (String.eqb (status c) s); reflexivity. Qed.

Lemma status_indicator (s : string) :
  ((if String.eqb s "pending" then 1 else 0)
   + (if String.eqb s "in-progress" then 1 else 0)
   + (if String.eqb s "resolved" then 1 else 0)
   + (if String.eqb s "rejected" then 1 else 0))%nat
  = if Schema.in_enum Schema.status_enum s then 1%nat else 0%nat.
Proof.
  unfold Schema.in_enum, Schema.status_enum. cbn [List.existsb].
  destruct (String.eqb_spec s "pending") as [-> | _]; [reflexivity |].
  destruct (String.eqb_spec s "in-progress") as [-> | _]; [reflexivity |].
  destruct (String.eqb_spec s "resolved") as [-> | _]; [reflexivity |].
  destruct (String.eqb_spec s "rejected") as [-> | _]; reflexivity.
Qed.

(** Each record is counted under at most one status, and under one
    exactly when its status is in the enumeration. *)
Lemma status_counts_partition (l : list Complaint) :
  (Spec.status_sum (get_stats l)
   + List.length (List.filter (fun c => negb (Spec.in_status_enum c)) l))%nat
  = List.length l.
Proof.
  unfold Spec.status_sum, get_stats. cbn [pending inProgress resolved rejected].
  induction l as [|c l IH]; [reflexivity |].
  rewrite !count_status_cons. cbn [List.filter List.length].
  pose proof (status_indicator (status c)) as Hi.
  unfold Spec.in_status_enum at 1.
  destruct (Schema.in_enum Schema.status_enum (status c)); cbn [negb List.length]; lia.
Qed.

Lemma filter_nil_iff {A : Type} (f : A -> bool) (l : list A) :
  List.length (List.filter f l) = O <-> Forall (fun x => f x = false) l.
Proof.
  induction l as [|x l IH]; simpl.
  - split; [constructor | reflexivity].
  - destruct (f x) eqn:E; simpl.
    + split; [discriminate | intros H; inversion H; congruence].
    + rewrite IH. split; [now constructor | intros H; now inversion H].
Qed.

(** The status part of the statistics: the four counts add up to at most
    the total, and to the total exactly when every stored status is in the
    enumeration. *)
Lemma status_counts_bound (l : list Complaint) :
  (Spec.status_sum (get_stats l) <= st_total (get_stats l))%nat
  /\ (Spec.status_sum (get_stats l) = st_total (get_stats l)
      <-> Forall (fun c => Spec.in_status_enum c = true) l).
Proof.
  pose proof (status_counts_partition l) as H.
  change (st_total (get_stats l)) with (List.length l).
  split; [lia |].
  assert (Hz : List.length (List.filter (fun c => negb (Spec.in_status_enum c)) l) = O
               <-> Forall (fun c => Spec.in_status_enum c = true) l).
  { rewrite filter_nil_iff. split; intros HF; eapply List.Forall_impl; try exact HF;
      intros c; cbv beta; destruct (Spec.in_status_enum c); simpl; congruence. }
  rewrite <- Hz. lia.
Qed.

Lemma sum_counts_commute (z1 z2 : tally) (y : nat) :
  (Spec.count_of z1 + (Spec.count_of z2 + y) = Spec.count_of z2 + (Spec.count_of z1 + y))%nat.
Proof. lia. Qed.

Lemma sum_counts_insert (m : gmap string tally) (k : string) (v : tally) :
  (Spec.sum_counts (<[k := v]> m) + Spec.count_of (default (Count 0) (m !! k)))%nat
  = (Spec.count_of v + Spec.sum_counts m)%nat.
Proof.
  unfold Spec.sum_counts.
  destruct (m !! k) as [old|] eqn:E; cbn [default from_option Spec.count_of].
  - rewrite <- (insert_delete_eq m k v).
    rewrite map_fold_insert_L;
      [| intros; apply sum_counts_commute | apply lookup_delete_eq].
    rewrite (map_fold_delete_L _ _ k old m);
      [| intros; apply sum_counts_commute | exact E].
    unfold id. lia.
  - rewrite map_fold_insert_L; [| intros; apply sum_counts_commute | exact E]. lia.
Qed.

Lemma sum_counts_empty : Spec.sum_counts ∅ = O.
Proof. unfold Spec.sum_counts. apply map_fold_empty. Qed.

(** When no stored issue type is the name of a member of
    [Object.prototype] (the six types of the schema are not), every value
    of [byType] is a count and the counts add up to the total. *)
Lemma byType_counts (l : list Complaint) :
  Forall (fun c => Spec.own_key c = true) l ->
  Spec.all_counts (byType (get_stats l))
  /\ Spec.sum_counts (byType (get_stats l)) = st_total (get_stats l).
Proof.
  unfold get_stats. cbn [byType st_total]. unfold countByType.
  assert (G : forall m n,
             Spec.all_counts m -> Spec.sum_counts m = n ->
             Forall (fun c => Spec.own_key c = true) l ->
             Spec.all_counts (List.fold_left tallyOne l m)
             /\ Spec.sum_counts (List.fold_left tallyOne l m) = (n + List.length l)%nat).
  { induction l as [|c l IH]; intros m n Hall Hsum HF; cbn [List.fold_left List.length].
    - split; [exact Hall | lia].
    - apply List.Forall_cons_iff in HF as [Hc HF'].
      unfold Spec.own_key in Hc. apply negb_true_iff in Hc.
      unfold tallyOne at 2 4.
      set (k := JS.interpolate (issueType c)) in *.
      assert (Hk : String.eqb k Obj.proto_accessor = false).
      { unfold Obj.inherited in Hc. now apply orb_false_iff in Hc as [_ Hc]. }
      assert (Hb : exists j, bumped m k = Count (S j)
                             /\ Spec.count_of (default (Count 0) (m !! k)) = j).
      { unfold bumped. rewrite Hc. destruct (m !! k) as [[j | t]|] eqn:E.
        - exists j. split; [f_equal; lia | reflexivity].
        - apply Hall in E. discriminate.
        - exists O. split; reflexivity. }
      destruct Hb as [j [Hb Hj]].
      unfold assign. rewrite Hk, Hb.
      destruct (IH (<[k := Count (S j)]> m) (S n)) as [H1 H2]; [| | exact HF' |].
      + intros k' v'. rewrite lookup_insert. case_decide; [| apply Hall].
        intros [= <-]. reflexivity.
      + pose proof (sum_counts_insert m k (Count (S j))) as Hi.
        rewrite Hj in Hi. cbn [Spec.count_of] in Hi. lia.
      + split; [exact H1 | rewrite H2; lia]. }
  intros HF. destruct (G ∅ O) as [H1 H2]; [| apply sum_counts_empty | exact HF |].
  - intros k v Hlk. rewrite lookup_empty in Hlk. discriminate.
  - split; [exact H1 | exact H2].
Qed.

Lemma schema_types_are_own_keys :
  List.forallb (fun t => negb (Obj.inherited t)) Schema.issueType_enum = true.
Proof. reflexivity. Qed.

(** An issue type of the schema's enumeration is not an inherited name. *)
Lemma schema_type_own_key (c : Complaint) (t : string) :
  issueType c = Some t ->
  Schema.in_enum Schema.issueType_enum t = true ->
  Spec.own_key c = true.
Proof.
  intros Hc Ht. unfold Spec.own_key. rewrite Hc. cbn [JS.interpolate].
  unfold Schema.in_enum, Schema.issueType_enum in Ht. cbn [List.existsb] in Ht.
  repeat (apply orb_true_iff in Ht as [Ht | Ht];
          [apply String.eqb_eq in Ht; subst t; reflexivity |]).
  discriminate.
Qed.

(** C10 at a store that a create request leaves. The request names the
    issue type [constructor]; the lookup in [byType] finds the inherited
    function, and the value stored under that key is a text, not a count:
    the per-type counts add up to 0 while the total is 1, and the
    invariant of the statistics fails. *)
Lemma stats_invariant_fails :
  (exists c, Samples.store6 = [c] /\ issueType c = Some "constructor")
  /\ st_total (get_stats Samples.store6) = 1%nat
  /\ byType (get_stats Samples.store6) !! "constructor"
     = Some (Text "function Object() { [native code] }1")
  /\ Spec.sum_counts (byType (get_stats Samples.store6)) = O
  /\ ~ Spec.stats_invariant Samples.store6.
Proof.
  assert (Hm : byType (get_stats Samples.store6)
               = <["constructor" := Text "function Object() { [native code] }1"]> ∅).
  { reflexivity. }
  split; [eexists; split; reflexivity |]. split; [reflexivity |].
  split; [rewrite Hm; apply lookup_insert_eq |]. split.
  - rewrite Hm.
    pose proof (sum_counts_insert ∅ "constructor"
                  (Text "function Object() { [native code] }1")) as H.
    rewrite lookup_empty, sum_counts_empty in H. cbn in H. lia.
  - intros [_ [Hall _]]. cbv zeta in Hall. rewrite Hm in Hall.
    specialize (Hall "constructor" _ (lookup_insert_eq _ _ _)). discriminate.
Qed.

(** Where the counting loop does count: for a store none of whose issue
    types is the name of a member of [Object.prototype] (the six types of
    the schema are not), the total is the number of stored complaints and
    the sum of the per-type counts of [byType], and the four per-status
    counts add up to at most the total, and to the total exactly when
    every stored status is in the enumeration. *)
Theorem stats_invariant_own_keys (complaints : list Complaint) :
  Forall (fun c => Spec.own_key c = true) complaints ->
  Spec.stats_invariant complaints.
Proof.
  intros HF. unfold Spec.stats_invariant. cbv zeta.
  destruct (byType_counts complaints HF) as [H1 H2].
  destruct (status_counts_bound complaints) as [H3 H4].
  repeat split; try assumption; apply H4.
Qed.

Lemma stats_invariant_own_keys_witness :
  Spec.stats_invariant Samples.store5
  /\ st_total (get_stats Samples.store5) = 5%nat
  /\ byType (get_stats Samples.store5) !! "garbage" = Some (Count 2).
Proof.
  split; [| split; reflexivity].
  apply stats_invariant_own_keys.
  repeat constructor.
Defined.

End Statistics.

(** ** The primitives on sample inputs *)
Section Evaluations.

Example parseFloat_samples :
  JS.parseFloat (Some "12.5") = JS.Decimal false 125 (-1)
  /\ JS.parseFloat (Some "  -3e2xyz") = JS.Decimal true 3 2
  /\ JS.parseFloat (Some ".5") = JS.Decimal false 5 (-1)
  /\ JS.parseFloat (Some "7.") = JS.Decimal false 7 0
  /\ JS.parseFloat (Some "-Infinity") = JS.Infinity true
  /\ JS.parseFloat (Some "abc") = JS.NaN
  /\ JS.parseFloat (Some "") = JS.NaN
  /\ JS.parseFloat None = JS.NaN.
Proof. repeat split; reflexivity. Qed.

Example parseInt_samples :
  JS.parseInt "100" = Some 100 /\ JS.parseInt " -7px" = Some (-7)
  /\ JS.parseInt "0x1f" = Some 31 /\ JS.parseInt "" = None /\ JS.parseInt "x" = None.
Proof. repeat split; reflexivity. Qed.

Example string_samples :
  JS.toStringRadix 36 35 = "z" /\ JS.toStringRadix 36 36 = "10"
  /\ JS.toStringRadix 10 1700000000000 = "1700000000000"
  /\ JS.removeAll "```" (JS.removeAll "```json" "```json {} ```") = " {} "
  /\ JS.trim "  a b  " = "a b"
  /\ JS.slice (Some 1) (Some 3) [1; 2; 3; 4; 5] = [2; 3]
  /\ JS.slice (Some (-2)) None [1; 2; 3; 4; 5] = []
  /\ JS.slice None (Some 2) [1; 2; 3; 4; 5] = [1; 2].
Proof. repeat split; reflexivity. Qed.

(** An answer of the model wrapped in a code fence is read; its issue
    type replaces the citizen's and its description is appended. *)
Example vision_override :
  let env := {| GEMINI_API_KEY := Some "key";
                readFileSync := fun _ => Some "bytes";
                generateContent := fun _ _ => Some "```json {...} ```";
                JSON_parse := fun s =>
                  if String.eqb s "{...}"
                  then Truthy {| ai_issueType := Some "pothole"; ai_priority := Some "high";
                                 ai_description := Some "Large pothole." |}
                  else SyntaxError |} in
  let req := {| body := Samples.form (Some "garbage") (Some "look") (Some "1") (Some "2");
                file := Some {| path := "p"; filename := "f.jpg" |} |} in
  let c := (newComplaint env req (Samples.clock 0) "0.abcd").1 in
  issueType c = Some "pothole"
  /\ description c = Some "look (AI Detected: Large pothole.)"
  /\ priority c = "high"
  /\ aiAnalysis c = true
  /\ photo c = "/uploads/f.jpg".
Proof. repeat split; reflexivity. Qed.

End Evaluations.

(** * Further properties of the code *)

(** ** The input sanitizer *)
Section SanitizerProps.

Import Sanitizer.

Lemma value_induction (P : value -> Prop) :
  P Null ->
  (forall text, P (Primitive text)) ->
  (forall items, Forall P items -> P (Array items)) ->
  (forall props, Forall (fun kv => P kv.2) props -> P (Object props)) ->
  forall v, P v.
Proof.
  intros HN HP HA HO. fix IH 1. intros [| text | items | props].
  - exact HN.
  - apply HP.
  - apply HA.
    refine ((fix go (l : list value) : Forall P l :=
               match l with
               | [] => @List.Forall_nil _ P
               | x :: xs => @List.Forall_cons _ P x xs (IH x) (go xs)
               end) items).
  - apply HO.
    refine ((fix go (l : list (string * value)) : Forall (fun kv => P kv.2) l :=
               match l with
               | [] => @List.Forall_nil _ (fun kv => P kv.2)
               | (k, x) :: ps =>
                   @List.Forall_cons _ (fun kv => P kv.2) (k, x) ps (IH x) (go ps)
               end) props).
Qed.

Lemma sanitize_object (props : list (string * value)) :
  sanitize (Object props) = Object (visit props).
Proof. reflexivity. Qed.

Lemma clean_object (props : list (string * value)) :
  clean (Object props) = clean_props props.
Proof. reflexivity. Qed.

Lemma sanitize_clean (v : value) : clean (sanitize v) = true.
Proof.
  induction v as [| text | items IH | props IH] using value_induction;
    try reflexivity.
  - cbn [sanitize clean]. induction IH as [|x xs Hx _ IHxs]; [reflexivity |].
    cbn [List.map List.forallb]. now rewrite Hx, IHxs.
  - rewrite sanitize_object, clean_object.
    induction IH as [|[k x] ps Hx _ IHps]; [reflexivity |].
    cbn [visit]. destruct (unsafe_key k) eqn:Hk; [exact IHps |].
    cbn [clean_props]. cbn [snd] in Hx. now rewrite Hk, Hx, IHps.
Qed.

Lemma sanitize_fixes_clean (v : value) : clean v = true -> sanitize v = v.
Proof.
  induction v as [| text | items IH | props IH] using value_induction;
    try reflexivity.
  - cbn [sanitize clean]. intros Hc. f_equal.
    induction IH as [|x xs Hx _ IHxs]; [reflexivity |].
    cbn [List.forallb] in Hc. apply andb_true_iff in Hc as [Hcx Hcxs].
    cbn [List.map]. now rewrite Hx, IHxs.
  - rewrite sanitize_object, clean_object. intros Hc. f_equal.
    induction IH as [|[k x] ps Hx _ IHps]; [reflexivity |].
    cbn [clean_props] in Hc.
    apply andb_true_iff in Hc as [Hc Hcps]. apply andb_true_iff in Hc as [Hk Hcx].
    apply negb_true_iff in Hk. cbn [visit snd] in *.
    now rewrite Hk, Hx, IHps.
Qed.

(** X1. Whatever the request holds, after the sanitizer no key of the
    body, the query or the parameters, at any depth of nesting and inside
    arrays too, holds a dollar sign or a dot. *)
Theorem sanitizer_leaves_no_unsafe_key (req : Req) (v : value) :
  body (middleware req) = Some v \/ query (middleware req) = Some v
  \/ params (middleware req) = Some v ->
  clean v = true.
Proof.
  unfold middleware. cbn [body query params].
  intros [H | [H | H]];
    [destruct (body req) | destruct (query req) | destruct (params req)];
    try discriminate; injection H as <-; apply sanitize_clean.
Qed.

Lemma sanitizer_leaves_no_unsafe_key_witness :
  clean (Object [("name", Primitive "a");
                 ("filter", Array [Object [("ok", Null)]])]) = true.
Proof.
  apply (sanitizer_leaves_no_unsafe_key
           {| body := Some (Object [("name", Primitive "a"); ("$where", Primitive "1");
                                    ("filter", Array [Object [("a.b", Null); ("ok", Null)]])]);
              query := None; params := None |}).
  left. reflexivity.
Defined.

(** X2. The sanitizer keeps, in their order, exactly the keys of an object
    that hold neither a dollar sign nor a dot, each with its sanitized
    value; it changes nothing in a value that has no such key, so
    sanitizing twice is sanitizing once; and it never deletes an element
    of an array. *)
Theorem sanitizer_keeps_safe_keys (props : list (string * value)) (items : list value)
    (v : value) :
  (exists kept,
      sanitize (Object props) = Object kept
      /\ List.map fst kept
         = List.filter (fun k => negb (unsafe_key k)) (List.map fst props)
      /\ forall k x, In (k, x) kept -> exists x0, In (k, x0) props /\ x = sanitize x0)
  /\ sanitize (Array items) = Array (List.map sanitize items)
  /\ (clean v = true -> sanitize v = v)
  /\ sanitize (sanitize v) = sanitize v.
Proof.
  split; [| split; [reflexivity | split]].
  - exists (visit props). split; [apply sanitize_object |]. split.
    + induction props as [|[k x] ps IH]; [reflexivity |].
      cbn [visit List.map List.filter fst].
      destruct (unsafe_key k); cbn [negb List.map fst]; now rewrite IH.
    + induction props as [|[k0 x0] ps IH]; intros k x Hin; [destruct Hin |].
      cbn [visit] in Hin. destruct (unsafe_key k0).
      * destruct (IH k x Hin) as [y [Hy ->]]. exists y. split; [now right | reflexivity].
      * destruct Hin as [[= <- <-] | Hin].
        -- exists x0. split; [now left | reflexivity].
        -- destruct (IH k x Hin) as [y [Hy ->]]. exists y.
           split; [now right | reflexivity].
  - apply sanitize_fixes_clean.
  - apply sanitize_fixes_clean, sanitize_clean.
Qed.

Lemma sanitizer_keeps_safe_keys_witness :
  sanitize (Object [("user", Object [("name", Primitive "a")]); ("tags", Array [Null])])
  = Object [("user", Object [("name", Primitive "a")]); ("tags", Array [Null])].
Proof.
  destruct (sanitizer_keeps_safe_keys [] []
              (Object [("user", Object [("name", Primitive "a")]); ("tags", Array [Null])]))
    as [_ [_ [H _]]].
  apply H. reflexivity.
Defined.

End SanitizerProps.

(** ** Creation: the stored record *)
Section CreateProps.


Lemma truthy_some (s : string) : s <> "" -> JS.truthy (Some s) = true.
Proof. intros H. simpl. destruct (String.eqb_spec s ""); [contradiction | reflexivity]. Qed.

Lemma truthy_inv (v : option string) :
  JS.truthy v = true -> exists s, v = Some s /\ s <> "".
Proof.
  destruct v as [s|]; [| discriminate]. simpl.
  destruct (String.eqb_spec s ""); [discriminate |]. intros _. now exists s.
Qed.


Lemma defaultIssueType_given (lat lon : option string) (t : string) :
  t <> "" -> defaultIssueType (Some t) lat lon = Some t.
Proof.
  intros Ht. unfold defaultIssueType. rewrite (truthy_some t Ht). cbn [negb orb].
  destruct (negb (JS.truthy lat) || negb (JS.truthy lon)); [| reflexivity].
  simpl. destruct (String.eqb_spec t ""); [contradiction | reflexivity].
Qed.

(** The fallback gives its argument back or one of five literal types. *)
Lemma smartFallback_cases (it d : option string) :
  smartFallback it d = it
  \/ (it = Some "other"
      /\ exists t, smartFallback it d = Some t
                   /\ In t ["pothole"; "garbage"; "streetlight"; "water-leakage"; "dirty-toilet"]).
Proof.
  unfold smartFallback.
  destruct (JS.strict_eq it "other") eqn:Ho; cbn [andb]; [| now left].
  apply strict_eq_true in Ho. subst it.
  destruct (JS.truthy d); [| now left].
  generalize (JS.toLowerCase (JS.interpolate d)). intros ld.
  repeat match goal with
         | |- context [if ?b then _ else _] =>
             destruct b; [right; split; [reflexivity |]; eexists; split;
                          [reflexivity | simpl; tauto] |]
         end.
  now left.
Qed.

Lemma smartFallback_not_other (t : string) (d : option string) :
  t <> "other" -> smartFallback (Some t) d = Some t.
Proof.
  intros Ht. unfold smartFallback. simpl.
  destruct (String.eqb_spec t "other"); [contradiction | reflexivity].
Qed.


(** The answer and the store of a create request. *)
Lemma post_appends_pending (env : Env) (req : Request) (clk : Clock)
    (rnd : string) (complaints : list Complaint) :
  exists c tr,
    post env req clk rnd complaints
    = (Post201 (generateComplaintId (t_gen clk) rnd) "pending" (t_now clk),
       (complaints ++ [c])%list, tr)
    /\ c = (newComplaint env req clk rnd).1
    /\ complaintId c = generateComplaintId (t_gen clk) rnd
    /\ status c = "pending".
Proof.
  unfold post, newComplaint.
  destruct (visionStep env req) as [[[ai it] d] tr].
  eexists _, tr. repeat split.
Qed.



Lemma given_type_stored (env : Env) (req : Request) (clk : Clock) (rnd : string)
    (ai : option AiAnalysis) (t : string) (d : option string) (tr : list event) :
  visionStep env req = (ai, Some t, d, tr) ->
  t <> "" -> t <> "other" ->
  issueType (newComplaint env req clk rnd).1 = Some t
  /\ department (newComplaint env req clk rnd).1 = assignedDepartment (Some t).
Proof.
  intros Hv Ht Ho. unfold newComplaint. rewrite Hv. cbn [fst issueType department].
  rewrite (defaultIssueType_given _ _ t Ht), (smartFallback_not_other t d Ho).
  split; reflexivity.
Qed.

(** X4. An issue type that is neither empty nor [other] after the vision
    step is stored as it is, whatever the description says: the keyword
    fallback never replaces it. *)
Theorem explicit_type_is_kept (env : Env) (req : Request) (clk : Clock) (rnd : string)
    (ai : option AiAnalysis) (t : string) (d : option string) (tr : list event) :
  visionStep env req = (ai, Some t, d, tr) ->
  t <> "" -> t <> "other" ->
  issueType (newComplaint env req clk rnd).1 = Some t
  /\ department (newComplaint env req clk rnd).1 = assignedDepartment (Some t).
Proof.
  intros Hv Ht Ho.
  assert (Hd : defaultIssueType (Some t) (Body.latitude (body req))
                 (Body.longitude (body req)) = Some t)
    by now apply defaultIssueType_given.
  assert (Hf : smartFallback (Some t) d = Some t) by now apply smartFallback_not_other.
  unfold newComplaint. rewrite Hv. cbn [fst issueType department].
  rewrite Hd, Hf. split; reflexivity.
Qed.

Lemma explicit_type_is_kept_witness :
  issueType (newComplaint Samples.env
               {| body := Samples.form (Some "garbage") (Some "pothole on the road")
                            (Some "1") (Some "2");
                  file := None |} (Samples.clock 0) "0.abcd").1
  = Some "garbage".
Proof.
  apply (explicit_type_is_kept Samples.env
           {| body := Samples.form (Some "garbage") (Some "pothole on the road")
                        (Some "1") (Some "2");
              file := None |} (Samples.clock 0) "0.abcd" None "garbage"
           (Some "pothole on the road") []); [reflexivity | discriminate | discriminate].
Defined.

Lemma departmentOf_enum (t : string) :
  Schema.in_enum Schema.issueType_enum t = true ->
  assignedDepartment (Some t) = Obj.Str (Spec.departmentOf t).
Proof.
  unfold Schema.in_enum, Schema.issueType_enum. cbn [List.existsb]. intros Ht.
  repeat (apply orb_true_iff in Ht as [Ht | Ht];
          [apply String.eqb_eq in Ht; subst t; reflexivity |]).
  discriminate.
Qed.

(** X5. When the issue type after the vision step is unset, empty or one
    of the six types of the schema, the stored type is one of the six and
    the department is the name that the table gives for it, which is also
    the first assignee. *)
Theorem enum_type_stays_in_enum (env : Env) (req : Request) (clk : Clock) (rnd : string)
    (ai : option AiAnalysis) (it d : option string) (tr : list event) :
  visionStep env req = (ai, it, d, tr) ->
  JS.truthy it = false
  \/ (exists t, it = Some t /\ Schema.in_enum Schema.issueType_enum t = true) ->
  exists t',
    issueType (newComplaint env req clk rnd).1 = Some t'
    /\ Schema.in_enum Schema.issueType_enum t' = true
    /\ department (newComplaint env req clk rnd).1 = Obj.Str (Spec.departmentOf t')
    /\ assignedTo (newComplaint env req clk rnd).1 = Obj.Str (Spec.departmentOf t').
Proof.
  intros Hv Hit. unfold newComplaint. rewrite Hv.
  cbn [fst issueType department assignedTo].
  set (lat := Body.latitude (body req)). set (lon := Body.longitude (body req)).
  assert (Hd : exists t, defaultIssueType it lat lon = Some t
                         /\ Schema.in_enum Schema.issueType_enum t = true).
  { destruct Hit as [Hf | [t [-> Ht]]].
    - exists "other". split; [| reflexivity]. apply defaultIssueType_other. now left.
    - exists t. split; [| exact Ht]. apply defaultIssueType_given.
      intros ->. discriminate. }
  destruct Hd as [t [-> Ht]].
  destruct (smartFallback_cases (Some t) d) as [-> | [_ [t' [-> Hin]]]].
  - exists t. now rewrite (departmentOf_enum t Ht).
  - exists t'. simpl in Hin.
    repeat (destruct Hin as [<- | Hin]; [repeat split; reflexivity |]). destruct Hin.
Qed.

Lemma enum_type_stays_in_enum_witness :
  exists t',
    issueType (newComplaint Samples.env
                 {| body := Samples.form None (Some "sewage in the drain") (Some "1") (Some "2");
                    file := None |} (Samples.clock 0) "0.abcd").1 = Some t'
    /\ Schema.in_enum Schema.issueType_enum t' = true.
Proof.
  destruct (enum_type_stays_in_enum Samples.env
              {| body := Samples.form None (Some "sewage in the drain") (Some "1") (Some "2");
                 file := None |} (Samples.clock 0) "0.abcd" None None
              (Some "sewage in the drain") []) as [t' [H1 [H2 _]]].
  - reflexivity.
  - left. reflexivity.
  - exists t'. split; assumption.
Defined.

(** X6. A type outside the six of the schema (and not empty) goes to
    General Administration, unless it is the name of a member of
    [Object.prototype]: then the lookup in the department table finds that
    member, and the department and the assignee of the stored record are
    not strings. *)
Theorem unknown_type_department (env : Env) (req : Request) (clk : Clock) (rnd : string)
    (ai : option AiAnalysis) (t : string) (d : option string) (tr : list event) :
  visionStep env req = (ai, Some t, d, tr) ->
  t <> "" ->
  Schema.in_enum Schema.issueType_enum t = false ->
  department (newComplaint env req clk rnd).1
  = (if Obj.inherited t then Obj.Inherited t else Obj.Str "General Administration")
  /\ assignedTo (newComplaint env req clk rnd).1
     = department (newComplaint env req clk rnd).1.
Proof.
  intros Hv Ht Hn.
  assert (Ho : t <> "other") by (intros ->; discriminate).
  destruct (given_type_stored env req clk rnd ai t d tr Hv Ht Ho) as [_ Hd].
  split; [| unfold newComplaint; destruct (visionStep env req) as [[[? ?] ?] ?]; reflexivity].
  rewrite Hd. unfold assignedDepartment, Obj.get. cbn [JS.interpolate].
  assert (Hown : Obj.own departmentMap t = None).
  { unfold Schema.in_enum, Schema.issueType_enum in Hn. cbn [List.existsb] in Hn.
    repeat (apply orb_false_iff in Hn as [?E Hn]).
    unfold departmentMap. cbn [Obj.own]. now rewrite E, E0, E1, E2, E3, E4. }
  rewrite Hown. destruct (Obj.inherited t); reflexivity.
Qed.

Lemma unknown_type_department_witness :
  department (newComplaint Samples.env
                {| body := Samples.form (Some "noise") (Some "loud") (Some "1") (Some "2");
                   file := None |} (Samples.clock 0) "0.abcd").1
  = Obj.Str "General Administration"
  /\ department (newComplaint Samples.env Samples.request6 (Samples.clock 0) "0.abcd").1
     = Obj.Inherited "constructor".
Proof.
  split.
  - apply (unknown_type_department Samples.env
             {| body := Samples.form (Some "noise") (Some "loud") (Some "1") (Some "2");
                file := None |} (Samples.clock 0) "0.abcd" None "noise" (Some "loud") []);
      [reflexivity | discriminate | reflexivity].
  - apply (unknown_type_department Samples.env Samples.request6 (Samples.clock 0) "0.abcd"
             None "constructor" (Some "bench is broken") []);
      [reflexivity | discriminate | reflexivity].
Defined.

End CreateProps.

(** ** The vision adapter *)
Section VisionProps.

(** X7. When the adapter returns an analysis for the photo of a request,
    the stored description is the citizen's text (the word [undefined]
    when none was sent), a space and the note of the analysis, so it is
    never unset; the record is flagged as analysed and points to the
    upload; the priority is that of the analysis when it has one, else
    [medium]; and an issue type of the analysis that is neither empty nor
    [other] replaces the citizen's. *)
Theorem vision_success_overrides (env : Env) (req : Request) (f : File) (clk : Clock)
    (rnd : string) (a : AiAnalysis) (tr : list event) :
  file req = Some f ->
  analyzeImageWithGemini env (path f) = (Some a, tr) ->
  let c := (newComplaint env req clk rnd).1 in
  description c
  = Some (JS.interpolate (Body.description (body req)) +:+ " "
          +:+ (if JS.truthy (ai_description a)
               then "(AI Detected: " +:+ JS.interpolate (ai_description a) +:+ ")"
               else ""))
  /\ aiAnalysis c = true
  /\ photo c = "/uploads/" +:+ filename f
  /\ priority c = JS.or_else (ai_priority a) "medium"
  /\ (forall t, ai_issueType a = Some t -> t <> "" -> t <> "other" ->
                issueType c = Some t)
  /\ (JS.truthy (ai_issueType a) = false ->
      issueType c
      = smartFallback
          (defaultIssueType (Body.issueType (body req)) (Body.latitude (body req))
             (Body.longitude (body req)))
          (description c)).
Proof.
  intros Hf Ha c. subst c. unfold newComplaint, visionStep. rewrite Hf, Ha.
  cbn [fst description aiAnalysis photo priority issueType].
  repeat split.
  - intros t Ht Hne Ho. unfold JS.or_opt. rewrite Ht, (truthy_some t Hne).
    now rewrite (defaultIssueType_given _ _ t Hne), (smartFallback_not_other t _ Ho).
  - intros Hfalse. unfold JS.or_opt. now rewrite Hfalse.
Qed.

Lemma no_backtick_remove (p s t : string) :
  JS.startsWith "`" p = true ->
  all_chars (fun c => negb (Ascii.eqb c "`")) s = true ->
  JS.remove_from p O (s +:+ t) = s +:+ JS.remove_from p O t.
Proof.
  intros Hp. induction s as [|c s IH]; intros Hs; simpl_append; [reflexivity |].
  cbn [all_chars] in Hs. apply andb_true_iff in Hs as [Hc Hs].
  apply negb_true_iff in Hc. cbn [JS.remove_from].
  assert (Hno : JS.startsWith p (String c (s +:+ t)) = false).
  { destruct p as [|a p]; [discriminate |]. cbn [JS.startsWith] in *.
    apply andb_true_iff in Hp as [Ha _]. apply Ascii.eqb_eq in Ha. subst a.
    rewrite Ascii.eqb_sym, Hc. reflexivity. }
  rewrite Hno. now rewrite IH.
Qed.

Lemma strip_fences (body : string) :
  all_chars (fun c => negb (Ascii.eqb c "`")) body = true ->
  JS.removeAll "```" (JS.removeAll "```json" ("```json" +:+ body +:+ "```")) = body
  /\ JS.removeAll "```" (JS.removeAll "```json" body) = body.
Proof.
  intros Hb. unfold JS.removeAll.
  assert (H1 : JS.remove_from "```json" O ("```json" +:+ body +:+ "```") = body +:+ "```").
  { simpl_append. cbn [JS.remove_from JS.startsWith Ascii.eqb Bool.eqb andb String.length
                         Nat.sub].
    now rewrite (no_backtick_remove "```json" body "```" eq_refl Hb). }
  assert (H2 : forall p, JS.startsWith "`" p = true ->
                         JS.remove_from p O body = body).
  { intros p Hp. rewrite <- (append_empty_r body) at 1.
    rewrite (no_backtick_remove p body "" Hp Hb). apply append_empty_r. }
  split.
  - rewrite H1, (no_backtick_remove "```" body "```" eq_refl Hb).
    apply append_empty_r.
  - now rewrite !H2.
Qed.

(** X8. An answer of the model that is wrapped in a [json] code fence is
    read as the same answer without the fence: when the text between the
    fences holds no backtick, the parser is given that text, trimmed, in
    both cases, and the adapter returns the same analysis after the same
    effects. *)
Theorem fenced_answer_is_unwrapped (env : Env) (filePath key image body : string) :
  GEMINI_API_KEY env = Some key -> key <> "" ->
  readFileSync env filePath = Some image ->
  all_chars (fun c => negb (Ascii.eqb c "`")) body = true ->
  generateContent env key image = Some ("```json" +:+ body +:+ "```")
  \/ generateContent env key image = Some body ->
  analyzeImageWithGemini env filePath
  = (match JSON_parse env (JS.trim body) with
     | Truthy a => Some a
     | _ => None
     end,
     [ReadFile filePath; NetworkCall key image]).
Proof.
  intros Hk Hne Hr Hb Hg. unfold analyzeImageWithGemini.
  rewrite Hk, (truthy_some key Hne), Hr. cbn [negb JS.interpolate].
  destruct (strip_fences body Hb) as [H1 H2].
  destruct Hg as [-> | ->]; [rewrite H1 | rewrite H2];
    destruct (JSON_parse env (JS.trim body)); reflexivity.
Qed.

Lemma fenced_answer_is_unwrapped_witness :
  let env := {| GEMINI_API_KEY := Some "key";
                readFileSync := fun _ => Some "bytes";
                generateContent := fun _ _ => Some "```json {} ```";
                JSON_parse := fun s =>
                  if String.eqb s "{}"
                  then Truthy {| ai_issueType := None; ai_priority := None;
                                 ai_description := None |}
                  else SyntaxError |} in
  (analyzeImageWithGemini env "p").1
  = Some {| ai_issueType := None; ai_priority := None; ai_description := None |}.
Proof.
  intros env.
  rewrite (fenced_answer_is_unwrapped env "p" "key" "bytes" " {} ");
    [reflexivity | reflexivity | discriminate | reflexivity | reflexivity |].
  left. reflexivity.
Defined.

(** X9. The adapter performs at most one network call, never before it
    has read the file and never without a credential; the key it sends is
    the configured one and the image is the content of the file; and it
    never returns an analysis without having made the call. *)
Theorem adapter_effects (env : Env) (filePath : string) :
  ((analyzeImageWithGemini env filePath).2 = []
   \/ (analyzeImageWithGemini env filePath).2 = [ReadFile filePath]
   \/ exists image,
        (analyzeImageWithGemini env filePath).2
        = [ReadFile filePath; NetworkCall (JS.interpolate (GEMINI_API_KEY env)) image]
        /\ JS.truthy (GEMINI_API_KEY env) = true
        /\ readFileSync env filePath = Some image)
  /\ ((analyzeImageWithGemini env filePath).1 <> None ->
      exists image,
        In (NetworkCall (JS.interpolate (GEMINI_API_KEY env)) image)
           (analyzeImageWithGemini env filePath).2)
  /\ (JS.truthy (GEMINI_API_KEY env) = false ->
      (analyzeImageWithGemini env filePath).2 = [])
  /\ (readFileSync env filePath = None ->
      forall key image,
        ~ In (NetworkCall key image) (analyzeImageWithGemini env filePath).2).
Proof.
  unfold analyzeImageWithGemini.
  destruct (JS.truthy (GEMINI_API_KEY env)) eqn:Hk; cbn [negb].
  2: { cbn [fst snd]. repeat split; try tauto; intros; intros []. }
  destruct (readFileSync env filePath) as [image|] eqn:Hr.
  2: { cbn [fst snd]. repeat split; try tauto; try discriminate.
       intros _ key image [H | []]. discriminate. }
  assert (Htr : exists image0,
             [ReadFile filePath; NetworkCall (JS.interpolate (GEMINI_API_KEY env)) image]
             = [ReadFile filePath; NetworkCall (JS.interpolate (GEMINI_API_KEY env)) image0]
             /\ true = true /\ Some image = Some image0).
  { now exists image. }
  destruct (generateContent env _ image) as [text|];
    [destruct (JSON_parse env _) |]; cbn [fst snd];
    (split; [right; right; exact Htr |]);
    (split; [intros _; exists image; right; left; reflexivity |]);
    (split; [discriminate | discriminate]).
Qed.

Lemma adapter_effects_witness :
  (analyzeImageWithGemini Samples.env "p").2 = [].
Proof.
  destruct (adapter_effects Samples.env "p") as [_ [_ [H _]]].
  apply H. reflexivity.
Defined.

Lemma vision_success_overrides_witness :
  let env := {| GEMINI_API_KEY := Some "key";
                readFileSync := fun _ => Some "bytes";
                generateContent := fun _ _ => Some "{}";
                JSON_parse := fun _ =>
                  Truthy {| ai_issueType := Some "pothole"; ai_priority := None;
                            ai_description := Some "Large pothole." |} |} in
  let req := {| body := Samples.form (Some "garbage") None (Some "1") (Some "2");
                file := Some {| path := "p"; filename := "f.jpg" |} |} in
  description (newComplaint env req (Samples.clock 0) "0.abcd").1
  = Some "undefined (AI Detected: Large pothole.)"
  /\ issueType (newComplaint env req (Samples.clock 0) "0.abcd").1 = Some "pothole".
Proof.
  intros env req.
  destruct (vision_success_overrides env req {| path := "p"; filename := "f.jpg" |}
              (Samples.clock 0) "0.abcd"
              {| ai_issueType := Some "pothole"; ai_priority := None;
                 ai_description := Some "Large pothole." |}
              [ReadFile "p"; NetworkCall "key" "bytes"] eq_refl eq_refl)
    as [H1 [_ [_ [_ [H5 _]]]]].
  split; [rewrite H1; reflexivity |].
  apply H5; [reflexivity | discriminate | discriminate].
Defined.

End VisionProps.

(** ** Listing: pages, bounds and order *)
Section ListingProps.

Lemma selected_same_filters (loc : Locale) (q q' : Query.t) :
  Query.status q' = Query.status q ->
  Query.issueType q' = Query.issueType q ->
  Query.date q' = Query.date q ->
  forall c, Spec.selected loc q' c = Spec.selected loc q c.
Proof. intros H1 H2 H3 c. unfold Spec.selected. now rewrite H1, H2, H3. Qed.

Lemma get_list_data (loc : Locale) (q : Query.t) (complaints : list Complaint) :
  data (get_list loc q complaints)
  = JS.slice (skip (get_list loc q complaints))
      (JS.add (skip (get_list loc q complaints)) (limit (get_list loc q complaints)))
      (sort_desc (List.filter (Spec.selected loc q) complaints))
  /\ total (get_list loc q complaints)
     = List.length (List.filter (Spec.selected loc q) complaints).
Proof.
  unfold get_list. cbn [data skip limit total]. rewrite filters_selected.
  split; [reflexivity |]. apply Permutation_length, sort_desc_perm.
Qed.

Lemma page_app {A : Type} (n a b : nat) (l : list A) :
  (Spec.page n a l ++ Spec.page (n + a) b l)%list = Spec.page n (a + b) l.
Proof.
  unfold Spec.page. rewrite Nat.add_comm, <- List.skipn_skipn.
  generalize (List.skipn n l). clear l. intros l. revert l.
  induction a as [|a IH]; intros l; [reflexivity |].
  destruct l as [|x l]; cbn [List.firstn List.skipn Nat.add].
  - now rewrite List.firstn_nil.
  - cbn [app]. now rewrite IH.
Qed.

(** X10. Pages follow one another: for the same filters, the page of [a]
    records after [n] and the page of [b] records after [n + a], put end to
    end, are the page of [a + b] records after [n]; paging loses and
    repeats no record. *)
Theorem pages_concatenate (loc : Locale) (q1 q2 q12 : Query.t)
    (complaints : list Complaint) (n a b : nat) :
  Query.status q2 = Query.status q1 -> Query.issueType q2 = Query.issueType q1 ->
  Query.date q2 = Query.date q1 ->
  Query.status q12 = Query.status q1 -> Query.issueType q12 = Query.issueType q1 ->
  Query.date q12 = Query.date q1 ->
  skip (get_list loc q1 complaints) = Some (Z.of_nat n) ->
  limit (get_list loc q1 complaints) = Some (Z.of_nat a) ->
  skip (get_list loc q2 complaints) = Some (Z.of_nat (n + a)) ->
  limit (get_list loc q2 complaints) = Some (Z.of_nat b) ->
  skip (get_list loc q12 complaints) = Some (Z.of_nat n) ->
  limit (get_list loc q12 complaints) = Some (Z.of_nat (a + b)) ->
  (data (get_list loc q1 complaints) ++ data (get_list loc q2 complaints))%list
  = data (get_list loc q12 complaints)
  /\ total (get_list loc q2 complaints) = total (get_list loc q1 complaints)
  /\ total (get_list loc q12 complaints) = total (get_list loc q1 complaints).
Proof.
  intros S2 I2 D2 S12 I12 D12 Hs1 Hl1 Hs2 Hl2 Hs12 Hl12.
  destruct (get_list_data loc q1 complaints) as [E1 T1].
  destruct (get_list_data loc q2 complaints) as [E2 T2].
  destruct (get_list_data loc q12 complaints) as [E12 T12].
  rewrite (List.filter_ext _ _ (selected_same_filters loc q1 q2 S2 I2 D2)) in E2, T2.
  rewrite (List.filter_ext _ _ (selected_same_filters loc q1 q12 S12 I12 D12)) in E12, T12.
  rewrite Hs1, Hl1, slice_page in E1. rewrite Hs2, Hl2, slice_page in E2.
  rewrite Hs12, Hl12, slice_page in E12.
  split; [| split; congruence].
  rewrite E1, E2, E12. apply page_app.
Qed.

Lemma pages_concatenate_witness :
  let q skip limit := {| Query.status := None; Query.issueType := None; Query.date := None;
                         Query.limit := Some limit; Query.skip := Some skip |} in
  (data (get_list Samples.locale (q "1" "2") Samples.store5)
   ++ data (get_list Samples.locale (q "3" "1") Samples.store5))%list
  = data (get_list Samples.locale (q "1" "3") Samples.store5).
Proof.
  intros q.
  apply (pages_concatenate Samples.locale (q "1" "2") (q "3" "1") (q "1" "3")
           Samples.store5 1 2 1); reflexivity.
Defined.

Lemma in_slice {A : Type} (a b : option Z) (l : list A) (x : A) :
  In x (JS.slice a b l) -> In x l.
Proof.
  unfold JS.slice. intros H.
  set (k := Z.to_nat (JS.clamp_index (Z.of_nat (List.length l)) a)) in *.
  set (n := Z.to_nat _) in H.
  rewrite <- (List.firstn_skipn k l). apply List.in_or_app. right.
  rewrite <- (List.firstn_skipn n (List.skipn k l)). apply List.in_or_app. now left.
Qed.

Lemma length_slice {A : Type} (a b : option Z) (l : list A) :
  (List.length (JS.slice a b l) <= List.length l)%nat.
Proof.
  unfold JS.slice. rewrite List.length_firstn, List.length_skipn. lia.
Qed.

(** X11. Whatever the paging parameters, every record of a page is a
    stored record that passes the filters, a page never holds more
    records than [total], and [total] is the number of stored records
    that pass the filters, the same for every [skip] and [limit]. With
    numbers that are not negative the page holds at most [limit]
    records, and none when [skip] is [total] or more. *)
Theorem page_bounds (loc : Locale) (q : Query.t) (complaints : list Complaint) :
  (forall c, In c (data (get_list loc q complaints)) ->
             In c complaints /\ Spec.selected loc q c = true)
  /\ (List.length (data (get_list loc q complaints)) <= total (get_list loc q complaints))%nat
  /\ total (get_list loc q complaints)
     = List.length (List.filter (Spec.selected loc q) complaints)
  /\ (forall n m,
        skip (get_list loc q complaints) = Some (Z.of_nat n) ->
        limit (get_list loc q complaints) = Some (Z.of_nat m) ->
        (List.length (data (get_list loc q complaints)) <= m)%nat
        /\ ((total (get_list loc q complaints) <= n)%nat ->
            data (get_list loc q complaints) = [])).
Proof.
  destruct (get_list_data loc q complaints) as [E T].
  split; [| split; [| split; [exact T |]]].
  - intros c Hc. rewrite E in Hc. apply in_slice in Hc.
    apply (Permutation_in _ (sort_desc_perm _)) in Hc.
    now apply List.filter_In in Hc.
  - rewrite E, T. etransitivity; [apply length_slice |].
    now rewrite (Permutation_length (sort_desc_perm _)).
  - intros n m Hs Hl. rewrite E, Hs, Hl, slice_page. unfold Spec.page. split.
    + rewrite List.length_firstn. lia.
    + intros Hn. rewrite List.skipn_all2; [apply List.firstn_nil |].
      rewrite (Permutation_length (sort_desc_perm _)), <- T. exact Hn.
Qed.

Lemma page_bounds_witness :
  data (get_list Samples.locale
          {| Query.status := None; Query.issueType := None; Query.date := None;
             Query.limit := Some "10"; Query.skip := Some "5" |} Samples.store5) = [].
Proof.
  destruct (page_bounds Samples.locale
              {| Query.status := None; Query.issueType := None; Query.date := None;
                 Query.limit := Some "10"; Query.skip := Some "5" |} Samples.store5)
    as [_ [_ [_ H]]].
  destruct (H 5%nat 10%nat) as [_ H']; [reflexivity | reflexivity |].
  apply H'. vm_compute. lia.
Defined.

(** X12. A [limit] or a [skip] that holds no number gives an empty page,
    while [total] still counts the records that pass the filters. *)
Theorem unparsable_paging_gives_empty_page (loc : Locale) (q : Query.t)
    (complaints : list Complaint) :
  limit (get_list loc q complaints) = None \/ skip (get_list loc q complaints) = None ->
  data (get_list loc q complaints) = []
  /\ total (get_list loc q complaints)
     = List.length (List.filter (Spec.selected loc q) complaints).
Proof.
  intros H. destruct (get_list_data loc q complaints) as [E T]. split; [| exact T].
  rewrite E. unfold JS.slice, JS.add, JS.clamp_index.
  set (len := Z.of_nat (List.length _)).
  assert (Hlen : 0 <= len) by (unfold len; lia).
  destruct (skip (get_list loc q complaints)) as [k|]; [| reflexivity].
  destruct H as [-> | H]; [| discriminate].
  replace (Z.to_nat (0 - (if k <? 0 then Z.max (len + k) 0 else Z.min k len))) with O;
    [reflexivity |].
  destruct (k <? 0) eqn:Hk; lia.
Qed.

Lemma unparsable_paging_gives_empty_page_witness :
  data (get_list Samples.locale
          {| Query.status := None; Query.issueType := None; Query.date := None;
             Query.limit := Some "ten"; Query.skip := None |} Samples.store5) = []
  /\ total (get_list Samples.locale
              {| Query.status := None; Query.issueType := None; Query.date := None;
                 Query.limit := Some "ten"; Query.skip := None |} Samples.store5) = 5%nat.
Proof.
  destruct (unparsable_paging_gives_empty_page Samples.locale
              {| Query.status := None; Query.issueType := None; Query.date := None;
                 Query.limit := Some "ten"; Query.skip := None |} Samples.store5)
    as [H1 H2].
  - left. reflexivity.
  - split; [exact H1 | rewrite H2; reflexivity].
Defined.

Lemma insert_desc_same_time (t : Z) (x : Complaint) (l : list Complaint) :
  List.filter (fun c => createdAt c =? t) (insert_desc x l)
  = List.filter (fun c => createdAt c =? t) (x :: l).
Proof.
  induction l as [|y l IH]; [reflexivity |]. cbn [insert_desc].
  destruct (Z.ltb_spec (createdAt x) (createdAt y)) as [Hlt | _]; [| reflexivity].
  cbn [List.filter] in *. rewrite IH.
  destruct (Z.eqb_spec (createdAt x) t), (Z.eqb_spec (createdAt y) t);
    try reflexivity. lia.
Qed.

Lemma sort_desc_same_time (t : Z) (l : list Complaint) :
  List.filter (fun c => createdAt c =? t) (sort_desc l)
  = List.filter (fun c => createdAt c =? t) l.
Proof.
  induction l as [|x l IH]; [reflexivity |]. cbn [sort_desc].
  rewrite insert_desc_same_time. cbn [List.filter]. now rewrite IH.
Qed.

(** X13. The order of a list is stable: when the whole result fits in the
    page (no [skip], and a [limit] that is at least the number of matching
    records), the records created at the same instant come in the order
    in which they are stored. *)
Theorem same_instant_keeps_store_order (loc : Locale) (q : Query.t)
    (complaints : list Complaint) (m : nat) (t : Z) :
  skip (get_list loc q complaints) = Some 0 ->
  limit (get_list loc q complaints) = Some (Z.of_nat m) ->
  (total (get_list loc q complaints) <= m)%nat ->
  List.filter (fun c => createdAt c =? t) (data (get_list loc q complaints))
  = List.filter (fun c => createdAt c =? t)
      (List.filter (Spec.selected loc q) complaints).
Proof.
  intros Hs Hl Hm. destruct (get_list_data loc q complaints) as [E T].
  rewrite E, Hs, Hl. change (Some 0) with (Some (Z.of_nat 0)).
  rewrite slice_page. unfold Spec.page. rewrite List.skipn_O.
  rewrite List.firstn_all2; [apply sort_desc_same_time |].
  rewrite (Permutation_length (sort_desc_perm _)), <- T. exact Hm.
Qed.

Lemma same_instant_keeps_store_order_witness :
  List.filter (fun c => createdAt c =? 1700000000000)
    (data (get_list Samples.locale
             {| Query.status := None; Query.issueType := None; Query.date := None;
                Query.limit := None; Query.skip := None |} Samples.store5))
  = [Samples.c1].
Proof.
  rewrite (same_instant_keeps_store_order Samples.locale
             {| Query.status := None; Query.issueType := None; Query.date := None;
                Query.limit := None; Query.skip := None |} Samples.store5 100 1700000000000);
    [reflexivity | reflexivity | reflexivity | vm_compute; lia].
Defined.

(** X14. The list and the statistics agree: the [total] of a list filtered
    by one status alone is the count of that status, so for the four
    statuses of the enumeration it is the figure that the statistics
    give. *)
Theorem list_total_is_status_count (loc : Locale) (complaints : list Complaint)
    (limit skip : option string) :
  let by_status s := {| Query.status := Some s; Query.issueType := None;
                        Query.date := None; Query.limit := limit; Query.skip := skip |} in
  total (get_list loc (by_status "pending") complaints) = pending (get_stats complaints)
  /\ total (get_list loc (by_status "in-progress") complaints)
     = inProgress (get_stats complaints)
  /\ total (get_list loc (by_status "resolved") complaints) = resolved (get_stats complaints)
  /\ total (get_list loc (by_status "rejected") complaints) = rejected (get_stats complaints).
Proof.
  intros by_status.
  assert (H : forall s, s <> "" ->
                total (get_list loc (by_status s) complaints) = count_status s complaints).
  { intros s Hs. destruct (get_list_data loc (by_status s) complaints) as [_ ->].
    unfold count_status. f_equal. apply List.filter_ext. intros c.
    unfold Spec.selected, by_status.
    cbn [Query.status Query.issueType Query.date JS.interpolate].
    rewrite (truthy_some s Hs). cbn [JS.truthy]. now rewrite !andb_true_r. }
  repeat split; apply H; discriminate.
Qed.

End ListingProps.

(** ** Lookup, update and removal by identifier *)
Section LookupProps.

Lemma get_one_cons (id : string) (x : Complaint) (l : list Complaint) :
  get_one id (x :: l) = if decide (complaintId x = id) then Some x else get_one id l.
Proof.
  unfold get_one. cbn [list_find]. unfold has_id at 1.
  destruct (decide (complaintId x = id)); [reflexivity |].
  destruct (list_find (has_id id) l) as [[i y]|]; reflexivity.
Qed.

Lemma get_one_app (id : string) (l l' : list Complaint) :
  get_one id (l ++ l')%list
  = match get_one id l with
    | Some c => Some c
    | None => get_one id l'
    end.
Proof.
  induction l as [|x l IH]; [reflexivity |].
  cbn [app]. rewrite !get_one_cons. destruct (decide (complaintId x = id)); [reflexivity | exact IH].
Qed.

Lemma get_one_none (id : string) (l : list Complaint) :
  get_one id l = None <-> Forall (fun c => complaintId c <> id) l.
Proof.
  induction l as [|x l IH]; [split; [constructor | reflexivity] |].
  rewrite get_one_cons. destruct (decide (complaintId x = id)) as [E | E].
  - split; [discriminate | intros H; apply List.Forall_cons_iff in H as [H _]; contradiction].
  - rewrite IH. split; [now constructor | intros H; now apply List.Forall_cons_iff in H].
Qed.

Lemma get_one_some (id : string) (l : list Complaint) (c : Complaint) :
  get_one id l = Some c ->
  exists l1 l2,
    l = (l1 ++ c :: l2)%list /\ complaintId c = id
    /\ Forall (fun x => complaintId x <> id) l1
    /\ list_find (has_id id) l = Some (List.length l1, c).
Proof.
  unfold get_one. destruct (list_find (has_id id) l) as [[i y]|] eqn:E; [| discriminate].
  intros [= <-]. apply list_find_Some in E as [Hi [Hy Hbefore]].
  exists (take i l), (drop (S i) l).
  assert (Hlen : List.length (take i l) = i).
  { rewrite List.length_firstn. apply lookup_lt_Some in Hi. lia. }
  split; [symmetry; now apply take_drop_middle |]. split; [exact Hy |]. split.
  - apply List.Forall_forall. intros x Hx. apply list_elem_of_In in Hx.
    apply list_elem_of_lookup in Hx as [j Hj].
    pose proof (lookup_lt_Some _ _ _ Hj) as Hlt. rewrite Hlen in Hlt.
    rewrite lookup_take_lt in Hj by exact Hlt. exact (Hbefore j x Hj Hlt).
  - now rewrite Hlen.
Qed.


(** X15. A created complaint is found again by its identifier when no
    stored complaint already has that identifier; when one has, the
    lookup still gives the older record and the new one is hidden. The
    lookups of the complaints stored before are not changed by the
    creation. *)
Theorem lookup_after_create (env : Env) (req : Request) (clk : Clock) (rnd : string)
    (complaints : list Complaint) :
  exists c,
    (post env req clk rnd complaints).1.2 = (complaints ++ [c])%list
    /\ complaintId c = generateComplaintId (t_gen clk) rnd
    /\ (get_one (complaintId c) complaints = None ->
        get_one (complaintId c) (post env req clk rnd complaints).1.2 = Some c)
    /\ (forall id c0, get_one id complaints = Some c0 ->
                      get_one id (post env req clk rnd complaints).1.2 = Some c0)
    /\ (forall id, id <> complaintId c ->
                   get_one id (post env req clk rnd complaints).1.2 = get_one id complaints).
Proof.
  destruct (post_appends_pending env req clk rnd complaints) as [c [tr [Hp [_ [Hid _]]]]].
  exists c. rewrite Hp. cbn [fst snd]. split; [reflexivity |]. split; [exact Hid |].
  split; [| split].
  - intros Hn. rewrite get_one_app, Hn, get_one_cons. now rewrite decide_True.
  - intros id c0 H0. now rewrite get_one_app, H0.
  - intros id Hne. rewrite get_one_app. destruct (get_one id complaints); [reflexivity |].
    rewrite get_one_cons. now rewrite decide_False.
Qed.

Lemma lookup_after_create_witness :
  exists c,
    get_one "CIV-LOYW3V28-4FZY"
      (post Samples.env
         {| body := Samples.form None None None None; file := None |}
         (Samples.clock 1700000000000) "0.4fzyo82mvyr" Samples.store5).1.2
    = Some c
    /\ description c = Some "overflowing bin".
Proof.
  destruct (lookup_after_create Samples.env
              {| body := Samples.form None None None None; file := None |}
              (Samples.clock 1700000000000) "0.4fzyo82mvyr" Samples.store5)
    as [c [_ [_ [_ [H _]]]]].
  exists Samples.c1. split; [| reflexivity].
  apply H. reflexivity.
Defined.



(** X17. A removal of an identifier that is not stored is answered 404
    and changes nothing. A removal of a stored identifier takes out the
    first record that has it and no other: the records before and after
    it stay in their order, the store is one record shorter, the lookups
    of other identifiers give what they gave, and a lookup of the removed
    identifier finds nothing unless a later record has the same
    identifier. *)
Theorem remove_then_lookup (id : string) (complaints : list Complaint) :
  (get_one id complaints = None -> delete id complaints = (Delete404, complaints))
  /\ (forall c, get_one id complaints = Some c ->
        exists l1 l2,
          complaints = (l1 ++ c :: l2)%list
          /\ Forall (fun x => complaintId x <> id) l1
          /\ delete id complaints = (Delete200, (l1 ++ l2)%list)
          /\ List.length (delete id complaints).2 = (List.length complaints - 1)%nat
          /\ get_one id (delete id complaints).2 = get_one id l2
          /\ (forall id', id' <> id ->
                get_one id' (delete id complaints).2 = get_one id' complaints)).
Proof.
  split.
  - intros Hn. unfold delete. unfold get_one in Hn.
    destruct (list_find (has_id id) complaints); [discriminate | reflexivity].
  - intros c Hc. destruct (get_one_some id complaints c Hc) as [l1 [l2 [-> [Hid [Hl1 Hf]]]]].
    exists l1, l2. split; [reflexivity |]. split; [exact Hl1 |].
    assert (Hd : delete id (l1 ++ c :: l2)%list = (Delete200, (l1 ++ l2)%list)).
    { unfold delete. rewrite Hf. f_equal.
      rewrite List.firstn_app, List.firstn_all, Nat.sub_diag. cbn [List.firstn].
      rewrite List.app_nil_r.
      replace (S (List.length l1)) with (List.length l1 + 1)%nat by lia.
      rewrite List.skipn_app, List.skipn_all2 by lia.
      replace (List.length l1 + 1 - List.length l1)%nat with 1%nat by lia.
      reflexivity. }
    rewrite Hd. cbn [snd]. split; [reflexivity |]. split; [| split].
    + rewrite !List.length_app. cbn [List.length]. lia.
    + rewrite get_one_app. apply get_one_none in Hl1. now rewrite Hl1.
    + intros id' Hne. rewrite !get_one_app, get_one_cons.
      rewrite decide_False by congruence. reflexivity.
Qed.

Lemma remove_then_lookup_witness :
  delete (complaintId Samples.c3) Samples.store5
  = (Delete200, [Samples.c1; Samples.c2; Samples.c4; Samples.c5])
  /\ get_one (complaintId Samples.c3) (delete (complaintId Samples.c3) Samples.store5).2
     = None.
Proof.
  destruct (remove_then_lookup (complaintId Samples.c3) Samples.store5) as [_ H].
  destruct (H Samples.c3) as [l1 [l2 [_ [_ [_ [_ [H5 _]]]]]]]; [reflexivity |].
  split; [reflexivity |]. reflexivity.
Defined.

Lemma count_status_app (s : string) (l l' : list Complaint) :
  count_status s (l ++ l')%list = (count_status s l + count_status s l')%nat.
Proof. unfold count_status. now rewrite List.filter_app, List.length_app. Qed.

Lemma count_status_one (s : string) (c : Complaint) :
  count_status s [c] = if String.eqb (status c) s then 1%nat else 0%nat.
Proof. unfold count_status. cbn. destruct (String.eqb (status c) s); reflexivity. Qed.

(** X18. A creation adds one to the total and to the count of pending
    complaints of the statistics and leaves the counts of the other three
    statuses as they were. *)
Theorem stats_after_create (env : Env) (req : Request) (clk : Clock) (rnd : string)
    (complaints : list Complaint) :
  let after := get_stats (post env req clk rnd complaints).1.2 in
  st_total after = S (st_total (get_stats complaints))
  /\ recentCount after = S (recentCount (get_stats complaints))
  /\ pending after = S (pending (get_stats complaints))
  /\ inProgress after = inProgress (get_stats complaints)
  /\ resolved after = resolved (get_stats complaints)
  /\ rejected after = rejected (get_stats complaints).
Proof.
  destruct (post_appends_pending env req clk rnd complaints)
    as [c [tr [Hp [_ [_ Hs]]]]].
  rewrite Hp. cbn [fst snd]. unfold get_stats.
  cbn [st_total recentCount pending inProgress resolved rejected].
  rewrite !count_status_app, List.length_app, !count_status_one, Hs.
  cbn. repeat split; lia.
Qed.

End LookupProps.

(** ** Numerals *)
Section Numerals.

Lemma digit_char_reads_back (d : N) :
  (d < 36)%N -> JS.digit_value (JS.digit_char d) = Some d.
Proof.
  intros Hd. rewrite <- (N2Nat.id d). assert (Hk : (N.to_nat d < 36)%nat) by lia.
  revert Hk. generalize (N.to_nat d). intros k Hk.
  do 36 (destruct k as [|k]; [reflexivity |]). lia.
Qed.

(** With enough fuel the digits pushed by [radix_digits] are the numeral
    of the number in any radix from 2 to 36: they read back as it. *)
Lemma radix_digits_read (radix : N) (fuel : nat) (n : N) (acc : string) :
  (2 <= radix <= 36)%N ->
  (n < 2 ^ N.of_nat fuel)%N ->
  exists ds,
    JS.radix_digits fuel radix n acc = ds +:+ acc
    /\ (forall a, JS.read_radix radix a ds
                  = Some (a * radix ^ N.of_nat (String.length ds) + n)%N).
Proof.
  intros Hr. revert n acc. induction fuel as [|f IH]; intros n acc Hn.
  - exists "". change (2 ^ N.of_nat 0)%N with 1%N in Hn.
    assert (n = 0%N) by lia. subst n. split; [reflexivity |].
    intros a. simpl. f_equal. lia.
  - cbn [JS.radix_digits].
    assert (Hmod : (n mod radix < radix)%N) by (apply N.mod_lt; lia).
    assert (Hval : JS.digit_value (JS.digit_char (n mod radix)) = Some (n mod radix)%N)
      by (apply digit_char_reads_back; lia).
    pose proof (N.div_mod n radix ltac:(lia)) as Hdm.
    destruct (N.eqb_spec (n / radix) 0) as [Hq | Hq].
    + exists (String (JS.digit_char (n mod radix)) ""). split; [reflexivity |].
      intros a. simpl. rewrite Hval.
      destruct (N.ltb_spec (n mod radix) radix) as [_ | ?]; [| lia].
      f_equal. change (N.of_nat 1) with 1%N. rewrite N.pow_1_r. nia.
    + assert (Hlt : (n / radix < 2 ^ N.of_nat f)%N).
      { apply N.Div0.div_lt_upper_bound.
        rewrite Nat2N.inj_succ, N.pow_succ_r' in Hn. nia. }
      destruct (IH (n / radix)%N (String (JS.digit_char (n mod radix)) acc) Hlt)
        as [ds [Hds Hread]].
      exists (ds +:+ String (JS.digit_char (n mod radix)) ""). split.
      * rewrite Hds, append_assoc. reflexivity.
      * intros a. rewrite read_radix_append, Hread. simpl. rewrite Hval.
        destruct (N.ltb_spec (n mod radix) radix) as [_ | ?]; [| lia].
        f_equal. rewrite length_append. simpl.
        rewrite Nat2N.inj_add. change (N.of_nat 1) with 1%N.
        rewrite N.pow_add_r, N.pow_1_r. nia.
Qed.

Lemma toStringRadix_reads_back (radix n : N) :
  (2 <= radix <= 36)%N ->
  JS.read_radix radix 0 (JS.toStringRadix radix n) = Some n.
Proof.
  intros Hr. unfold JS.toStringRadix.
  assert (Hn : (n < 2 ^ N.of_nat (S (N.size_nat n)))%N).
  { rewrite Nat2N.inj_succ, N.pow_succ_r'.
    assert (n < 2 ^ N.of_nat (N.size_nat n))%N; [| lia].
    destruct n as [|p]; [reflexivity | apply pos_lt_pow_size]. }
  destruct (radix_digits_read radix _ n "" Hr Hn) as [ds [Hds Hread]].
  rewrite Hds, append_empty_r, Hread. f_equal; lia.
Qed.

Lemma toStringRadix_injective (radix n m : N) :
  (2 <= radix <= 36)%N ->
  JS.toStringRadix radix n = JS.toStringRadix radix m -> n = m.
Proof.
  intros Hr E. pose proof (toStringRadix_reads_back radix n Hr) as Hn.
  rewrite E, (toStringRadix_reads_back radix m Hr) in Hn. congruence.
Qed.

Lemma toStringZ_injective (radix : N) (x y : Z) :
  (2 <= radix <= 36)%N -> 0 <= x -> 0 <= y ->
  toStringZ radix x = toStringZ radix y -> x = y.
Proof.
  intros Hr Hx Hy. unfold toStringZ.
  destruct (Z.ltb_spec x 0); [lia |]. destruct (Z.ltb_spec y 0); [lia |].
  intros E. apply toStringRadix_injective in E; [lia | exact Hr].
Qed.

Lemma append_inj_l (p a b : string) : p +:+ a = p +:+ b -> a = b.
Proof.
  induction p as [|c p IH]; simpl_append; [tauto |]. intros [= E]. now apply IH.
Qed.

(** Splitting at the first hyphen: two texts of [0-9A-Z] followed by a
    hyphen and a rest are equal only part by part. *)
Lemma split_at_hyphen (a a' b b' : string) :
  all_chars is_upper36 a = true -> all_chars is_upper36 a' = true ->
  a +:+ "-" +:+ b = a' +:+ "-" +:+ b' -> a = a' /\ b = b'.
Proof.
  revert a'. induction a as [|c a IH]; intros [|c' a'] Ha Ha' E; simpl_append.
  - injection E as E. now split.
  - injection E as Ec _. subst c'. cbn [all_chars] in Ha'. discriminate.
  - injection E as Ec _. subst c. cbn [all_chars] in Ha. discriminate.
  - injection E as Ec E. subst c'. cbn [all_chars] in Ha, Ha'.
    apply andb_true_iff in Ha as [_ Ha]. apply andb_true_iff in Ha' as [_ Ha'].
    destruct (IH a' Ha Ha' E) as [-> ->]. now split.
Qed.

(** X19. Two tracking identifiers made at different clock readings are
    different, whatever the random draws: equal identifiers have the same
    timestamp and the same suffix. *)
Theorem complaint_ids_differ_across_time (now1 now2 : Z) (rnd1 rnd2 : string) :
  0 <= now1 -> 0 <= now2 ->
  generateComplaintId now1 rnd1 = generateComplaintId now2 rnd2 ->
  now1 = now2
  /\ JS.toUpperCase (JS.substring 2 6 rnd1) = JS.toUpperCase (JS.substring 2 6 rnd2).
Proof.
  intros H1 H2 E. unfold generateComplaintId in E.
  assert (Ht : forall now, 0 <= now ->
             toStringZ 36 now = JS.toStringRadix 36 (Z.to_N now)).
  { intros now Hn. unfold toStringZ. destruct (Z.ltb_spec now 0); [lia |]. f_equal. lia. }
  rewrite (Ht now1 H1), (Ht now2 H2) in E.
  apply (append_inj_l "CIV") in E. apply (append_inj_l "-") in E.
  destruct (toStringRadix_36 (Z.to_N now1)) as [R1 [A1 _]].
  destruct (toStringRadix_36 (Z.to_N now2)) as [R2 [A2 _]].
  destruct (split_at_hyphen _ _ _ _ A1 A2 E) as [ET ES].
  split; [| exact ES].
  rewrite ET, R2 in R1. injection R1 as R1. lia.
Qed.

Lemma complaint_ids_differ_across_time_witness :
  generateComplaintId 1700000000000 "0.abcd" <> generateComplaintId 1700000000001 "0.abcd".
Proof.
  intros E.
  destruct (complaint_ids_differ_across_time 1700000000000 1700000000001 "0.abcd" "0.abcd")
    as [H _]; [lia | lia | exact E | discriminate H].
Defined.

(** X20. Two records created at different readings of the clock have
    different [_id]s: [mem_] followed by the reading in decimal. *)
Theorem mem_ids_differ_across_time (env env' : Env) (req req' : Request)
    (clk clk' : Clock) (rnd rnd' : string) :
  0 <= t_id clk -> 0 <= t_id clk' ->
  _id (newComplaint env req clk rnd).1 = _id (newComplaint env' req' clk' rnd').1 ->
  t_id clk = t_id clk'.
Proof.
  intros H1 H2. unfold newComplaint.
  destruct (visionStep env req) as [[[? ?] ?] ?].
  destruct (visionStep env' req') as [[[? ?] ?] ?].
  cbn [fst _id]. intros E. apply (append_inj_l "mem_") in E.
  apply (toStringZ_injective 10) in E; [exact E | lia | exact H1 | exact H2].
Qed.

Lemma mem_ids_differ_across_time_witness :
  _id Samples.c1 <> _id Samples.c2.
Proof.
  intros E.
  pose proof (mem_ids_differ_across_time Samples.env Samples.env
                {| body := Samples.form (Some "garbage") (Some "overflowing bin")
                             (Some "12.97") (Some "77.59"); file := None |}
                {| body := Samples.form None (Some "street lamp is dark")
                             (Some "12.97") (Some "77.59"); file := None |}
                (Samples.clock 1700000000000) (Samples.clock 1700000300000)
                "0.4fzyo82mvyr" "0.k2j7qd01xw") as H.
  cbn [Samples.clock t_id] in H.
  assert (1700000000000 = 1700000300000); [| discriminate].
  apply H; [lia | lia | exact E].
Defined.

End Numerals.

(** ** Listing: the claim *)
Section ListingClaim.












End ListingClaim.

(** ** One-time passcodes: requests, logins and identities *)
Section OtpProps.

Import Auth.

Lemma send_accepts (p : string) (now : Z) (draw : N) (st : State) :
  (10 <= String.length p)%nat ->
  send_otp (Some p) now draw st
  = (Send200,
     {| users := users st;
        otpStore := <[p := {| otp := JS.toStringRadix 10 draw;
                              expires := now + 5 * 60 * 1000 |}]> (otpStore st) |}).
Proof.
  intros Hp. unfold send_otp.
  assert (Hne : p <> "") by (intros ->; simpl in Hp; lia).
  rewrite (truthy_some p Hne). cbn [negb orb JS.interpolate].
  destruct (Nat.ltb_spec (String.length p) 10); [lia | reflexivity].
Qed.

(** X21. For a request whose phone is absent or a string: with no phone,
    or with a phone of fewer than ten characters, it is answered 400 and
    changes nothing. With a phone of ten characters or more it is
    answered 200 and stores, for that phone, the drawn code
    with an expiry five minutes after the request, replacing the challenge
    that was pending for the phone; the challenges of the other phones and
    the registered users stay as they were. *)
Theorem send_otp_validates_and_stores (phone : option string) (now : Z) (draw : N)
    (st : State) :
  (JS.truthy phone = false \/ (String.length (JS.interpolate phone) < 10)%nat ->
   send_otp phone now draw st = (Send400, st))
  /\ (forall p, phone = Some p -> (10 <= String.length p)%nat ->
        (send_otp phone now draw st).1 = Send200
        /\ otpStore (send_otp phone now draw st).2 !! p
           = Some {| otp := JS.toStringRadix 10 draw; expires := now + 300000 |}
        /\ (forall p', p' <> p ->
              otpStore (send_otp phone now draw st).2 !! p' = otpStore st !! p')
        /\ users (send_otp phone now draw st).2 = users st).
Proof.
  split.
  - intros H. unfold send_otp. destruct (JS.truthy phone); cbn [negb orb]; [| reflexivity].
    destruct H as [H | H]; [discriminate |].
    destruct (Nat.ltb_spec (String.length (JS.interpolate phone)) 10); [reflexivity | lia].
  - intros p -> Hp. rewrite (send_accepts p now draw st Hp). cbn [fst snd otpStore users].
    split; [reflexivity |]. split; [apply lookup_insert_eq |].
    split; [| reflexivity]. intros p' Hne. now apply lookup_insert_ne.
Qed.

Lemma send_otp_validates_and_stores_witness :
  send_otp (Some "12345") 0 1234 {| users := []; otpStore := ∅ |}
  = (Send400, {| users := []; otpStore := ∅ |})
  /\ (send_otp (Some "9876543210") 0 1234 {| users := []; otpStore := ∅ |}).1 = Send200.
Proof.
  split.
  - apply (send_otp_validates_and_stores (Some "12345") 0 1234). right. cbn. lia.
  - destruct (send_otp_validates_and_stores (Some "9876543210") 0 1234
                {| users := []; otpStore := ∅ |}) as [_ H].
    apply (H "9876543210"); [reflexivity | cbn; lia].
Defined.

Lemma fresh_code_accepted (p : string) (t0 t1 : Z) (draw draw' : N) (st : State) :
  (10 <= String.length p)%nat ->
  t1 <= t0 + 300000 ->
  exists user isNew st2,
    verify_otp p (Some (JS.toStringRadix 10 draw)) t1 draw' (send_otp (Some p) t0 draw st).2
    = (LoginSuccessful user isNew, st2)
    /\ phone user = p
    /\ otpStore st2 !! p = None.
Proof.
  intros Hp Ht. rewrite (send_accepts p t0 draw st Hp). cbn [snd].
  set (st1 := {| users := users st; otpStore := _ |}).
  assert (Hl : otpStore st1 !! p
               = Some {| otp := JS.toStringRadix 10 draw; expires := t0 + 5 * 60 * 1000 |})
    by apply lookup_insert_eq.
  destruct (verify_in_time p t1 draw' st1 _ Hl) as [u [b [Hv Hnew]]]; [cbn; lia |].
  cbn [otp] in Hv. eexists u, b, _. split; [exact Hv |]. cbn [otpStore].
  split; [| apply lookup_delete_eq].
  unfold verify_otp in Hv. rewrite Hl in Hv. cbn [otp expires] in Hv.
  destruct (negb (JS.strict_eq _ _)); [discriminate |].
  destruct (_ <? t1); [discriminate |].
  destruct (list_find (has_phone p) (users st1)) as [[i u0]|] eqn:Hu.
  - injection Hv as <- _ _. apply list_find_Some in Hu as [_ [Hu _]]. exact Hu.
  - injection Hv as <- _ _. reflexivity.
Qed.

(** X22. A code that was requested is accepted once up to and including
    the instant of its expiry, five minutes after the request, whatever
    challenge was pending before; one millisecond later it is answered
    [ExpiredChallenge] and the challenge is deleted. *)
Theorem requested_code_logs_in (p : string) (t0 t1 : Z) (draw draw' : N) (st : State) :
  (10 <= String.length p)%nat ->
  let st1 := (send_otp (Some p) t0 draw st).2 in
  (t1 <= t0 + 300000 ->
   exists user isNew st2,
     verify_otp p (Some (JS.toStringRadix 10 draw)) t1 draw' st1
     = (LoginSuccessful user isNew, st2)
     /\ phone user = p
     /\ otpStore st2 !! p = None)
  /\ (t0 + 300000 < t1 ->
      (verify_otp p (Some (JS.toStringRadix 10 draw)) t1 draw' st1).1 = ExpiredChallenge
      /\ otpStore (verify_otp p (Some (JS.toStringRadix 10 draw)) t1 draw' st1).2 !! p
         = None).
Proof.
  intros Hp st1. split; [intros Ht; now apply fresh_code_accepted |].
  intros Ht. subst st1. rewrite (send_accepts p t0 draw st Hp). cbn [snd].
  unfold verify_otp. cbn [otpStore]. rewrite lookup_insert_eq. cbn [otp expires].
  assert (E : JS.strict_eq (Some (JS.toStringRadix 10 draw)) (JS.toStringRadix 10 draw) = true)
    by now apply strict_eq_true.
  rewrite E. cbn [negb].
  destruct (Z.ltb_spec (t0 + 5 * 60 * 1000) t1); [| lia].
  cbn [fst snd otpStore]. split; [reflexivity | apply lookup_delete_eq].
Qed.

Lemma requested_code_logs_in_witness :
  exists user isNew st2,
    verify_otp "9876543210" (Some "4821") 301000 7000
      (send_otp (Some "9876543210") 1000 4821 {| users := []; otpStore := ∅ |}).2
    = (LoginSuccessful user isNew, st2).
Proof.
  destruct (requested_code_logs_in "9876543210" 1000 301000 4821 7000
              {| users := []; otpStore := ∅ |}) as [H _]; [cbn; lia |].
  destruct H as [u [b [st2 [H _]]]]; [lia |].
  exists u, b, st2. exact H.
Defined.

(** X23. A second request for the same phone replaces the first code:
    when the two drawn numbers differ, the first code is then answered
    [InvalidCode], and the second one logs in within its five minutes. *)
Theorem second_request_replaces_code (p : string) (t0 t1 t2 : Z) (d1 d2 draw' : N)
    (st : State) :
  (10 <= String.length p)%nat ->
  d1 <> d2 ->
  let st2 := (send_otp (Some p) t1 d2 (send_otp (Some p) t0 d1 st).2).2 in
  verify_otp p (Some (JS.toStringRadix 10 d1)) t2 draw' st2 = (InvalidCode, st2)
  /\ (t2 <= t1 + 300000 ->
      exists user isNew st3,
        verify_otp p (Some (JS.toStringRadix 10 d2)) t2 draw' st2
        = (LoginSuccessful user isNew, st3)).
Proof.
  intros Hp Hd st2. split.
  - subst st2. rewrite (send_accepts p t1 d2 _ Hp). cbn [snd].
    apply (verify_mismatch _ _ _ _ _
             {| otp := JS.toStringRadix 10 d2; expires := t1 + 5 * 60 * 1000 |}).
    + apply lookup_insert_eq.
    + cbn [otp]. intros [= E]. apply toStringRadix_injective in E; [contradiction | lia].
  - intros Ht.
    destruct (fresh_code_accepted p t1 t2 d2 draw' (send_otp (Some p) t0 d1 st).2 Hp Ht)
      as [u [b [st3 [Hv _]]]].
    now exists u, b, st3.
Qed.

Lemma second_request_replaces_code_witness :
  (verify_otp "9876543210" (Some "1111") 3000 7000
     (send_otp (Some "9876543210") 2000 2222
        (send_otp (Some "9876543210") 1000 1111 {| users := []; otpStore := ∅ |}).2).2).1
  = InvalidCode.
Proof.
  destruct (second_request_replaces_code "9876543210" 1000 2000 3000 1111 2222 7000
              {| users := []; otpStore := ∅ |}) as [H _]; [cbn; lia | discriminate |].
  exact (f_equal fst H).
Defined.

Lemma find_user_appended (p : string) (l : list User) (u : User) :
  list_find (has_phone p) l = None -> phone u = p ->
  list_find (has_phone p) (l ++ [u])%list = Some (List.length l, u).
Proof.
  intros Hn Hu. apply list_find_Some. split; [| split].
  - now rewrite list_lookup_middle.
  - exact Hu.
  - intros j y Hj Hlt. rewrite lookup_app_l in Hj by exact Hlt.
    apply list_find_None in Hn. rewrite Forall_forall in Hn.
    apply Hn. apply list_elem_of_lookup. now exists j.
Qed.

(** What a verification does to the registered users: nothing, or one
    new user for the phone at the end, and then no user had the phone. *)
Lemma verify_users (p : string) (code : option string) (now : Z) (draw : N) (st : State) :
  users (verify_otp p code now draw st).2 = users st
  \/ (list_find (has_phone p) (users st) = None
      /\ exists u, users (verify_otp p code now draw st).2 = (users st ++ [u])%list
                   /\ phone u = p
                   /\ (verify_otp p code now draw st).1 = LoginSuccessful u true).
Proof.
  unfold verify_otp. destruct (otpStore st !! p) as [r|]; [| now left].
  destruct (negb (JS.strict_eq code (otp r))); [now left |].
  destruct (expires r <? now); [now left |].
  destruct (list_find (has_phone p) (users st)) as [[i u]|] eqn:Hu; [now left |].
  right. split; [reflexivity |]. eexists. repeat split.
Qed.

(** X24. The registered users keep one record per phone: if no two users
    have the same phone before a verification, none have after it. A
    verification never changes or removes a registered user; it adds at
    most one, at the end, and only on the first login of a phone. A
    request for a code leaves the users as they are. *)
Theorem one_user_per_phone (p : string) (code : option string) (now : Z) (draw : N)
    (st : State) :
  NoDup (List.map phone (users st)) ->
  NoDup (List.map phone (users (verify_otp p code now draw st).2))
  /\ (exists added,
        users (verify_otp p code now draw st).2 = (users st ++ added)%list
        /\ (List.length added <= 1)%nat
        /\ (added <> [] ->
            exists u, added = [u] /\ phone u = p
                      /\ (verify_otp p code now draw st).1 = LoginSuccessful u true))
  /\ (forall phone' now' draw', users (send_otp phone' now' draw' st).2 = users st).
Proof.
  intros Hnd. destruct (verify_users p code now draw st) as [E | [Hn [u [E [Hu Hr]]]]].
  - rewrite E. split; [exact Hnd |]. split.
    + exists []. rewrite List.app_nil_r. repeat split; [cbn; lia | congruence].
    + intros ph n' d'. unfold send_otp. destruct (_ || _); reflexivity.
  - rewrite E. split; [| split].
    + rewrite List.map_app. cbn [List.map]. apply NoDup_app. split; [exact Hnd |].
      split; [| apply NoDup_singleton].
      intros x Hx Hx'. apply list_elem_of_In in Hx. apply list_elem_of_In in Hx'.
      destruct Hx' as [<- | []]. apply List.in_map_iff in Hx as [v [Hv Hin]].
      apply list_find_None in Hn. rewrite Forall_forall in Hn.
      apply (Hn v); [now apply list_elem_of_In | unfold has_phone; congruence].
    + exists [u]. repeat split; [cbn; lia |]. intros _. now exists u.
    + intros ph n' d'. unfold send_otp. destruct (_ || _); reflexivity.
Qed.

Lemma one_user_per_phone_witness :
  NoDup (List.map phone
           (users (verify_otp "9876543210" (Some "4821") 3000 7000
                     (send_otp (Some "9876543210") 1000 4821
                        {| users := []; otpStore := ∅ |}).2).2)).
Proof.
  apply (one_user_per_phone "9876543210" (Some "4821") 3000 7000). constructor.
Defined.

(** X25. A citizen keeps one identity: after a login of a phone, a new
    code requested for it and verified in time logs in the same user,
    with the same citizen identifier, reported as not new, and adds no
    user; the number drawn for a new identifier is not used. *)
Theorem returning_citizen_keeps_identity (p : string) (code1 : option string)
    (t1 t2 t3 : Z) (d1 d2 d3 : N) (st st1 : State) (u : User) (isNew : bool) :
  (10 <= String.length p)%nat ->
  verify_otp p code1 t1 d1 st = (LoginSuccessful u isNew, st1) ->
  t3 <= t2 + 300000 ->
  let st2 := (send_otp (Some p) t2 d2 st1).2 in
  exists st3,
    verify_otp p (Some (JS.toStringRadix 10 d2)) t3 d3 st2 = (LoginSuccessful u false, st3)
    /\ users st3 = users st1
    /\ otpStore st3 !! p = None.
Proof.
  intros Hp Hv Ht st2.
  assert (Hfind : exists i, list_find (has_phone p) (users st1) = Some (i, u)).
  { unfold verify_otp in Hv. destruct (otpStore st !! p) as [r|]; [| discriminate].
    destruct (negb (JS.strict_eq code1 (otp r))); [discriminate |].
    destruct (expires r <? t1); [discriminate |].
    destruct (list_find (has_phone p) (users st)) as [[i u0]|] eqn:Hu.
    - injection Hv as <- _ <-. now exists i.
    - injection Hv as <- _ <-. cbn [users]. eexists. now apply find_user_appended. }
  destruct Hfind as [i Hfind].
  subst st2. rewrite (send_accepts p t2 d2 st1 Hp). cbn [snd].
  unfold verify_otp. cbn [otpStore users]. rewrite lookup_insert_eq. cbn [otp expires].
  assert (E : JS.strict_eq (Some (JS.toStringRadix 10 d2)) (JS.toStringRadix 10 d2) = true)
    by now apply strict_eq_true.
  rewrite E. cbn [negb].
  destruct (Z.ltb_spec (t2 + 5 * 60 * 1000) t3); [lia |].
  rewrite Hfind. eexists. split; [reflexivity |]. cbn [users otpStore].
  split; [reflexivity | apply lookup_delete_eq].
Qed.

Lemma returning_citizen_keeps_identity_witness :
  let st0 := (send_otp (Some "9876543210") 1000 4821 {| users := []; otpStore := ∅ |}).2 in
  let r1 := verify_otp "9876543210" (Some "4821") 2000 7000 st0 in
  exists st3,
    verify_otp "9876543210" (Some "5555") 9000 8000
      (send_otp (Some "9876543210") 8000 5555 r1.2).2
    = (LoginSuccessful {| phone := "9876543210"; citizenId := "CIT-7000";
                          joinedAt := 2000; isVerified := true |} false, st3).
Proof.
  intros st0 r1.
  destruct (returning_citizen_keeps_identity "9876543210" (Some "4821") 2000 8000 9000
              7000 5555 8000 st0 r1.2
              {| phone := "9876543210"; citizenId := "CIT-7000";
                 joinedAt := 2000; isVerified := true |} true)
    as [st3 [H _]]; [cbn; lia | reflexivity | lia |].
  exists st3. exact H.
Defined.

Lemma four_digits_check :
  List.forallb
    (fun a =>
       List.forallb
         (fun b => let s := JS.toStringRadix 10 (1000 + 100 * N.of_nat a + N.of_nat b) in
                   Nat.eqb (String.length s) 4 && all_chars JS.is_digit s)
         (List.seq 0 100))
    (List.seq 0 90) = true.
Proof. vm_compute. reflexivity. Qed.

Lemma four_digits (draw : N) :
  (1000 <= draw <= 9999)%N ->
  String.length (JS.toStringRadix 10 draw) = 4%nat
  /\ all_chars JS.is_digit (JS.toStringRadix 10 draw) = true.
Proof.
  intros Hd. pose proof four_digits_check as Hc. rewrite List.forallb_forall in Hc.
  pose proof (N.div_mod (draw - 1000) 100 ltac:(lia)) as Hdm.
  assert (Hb : ((draw - 1000) mod 100 < 100)%N) by (apply N.mod_lt; lia).
  assert (Ha : ((draw - 1000) / 100 < 90)%N) by (apply N.Div0.div_lt_upper_bound; lia).
  specialize (Hc (N.to_nat ((draw - 1000) / 100))). rewrite List.forallb_forall in Hc.
  assert (Hb' : (N.to_nat ((draw - 1000) mod 100) < 100)%nat) by lia.
  assert (Ha' : (N.to_nat ((draw - 1000) / 100) < 90)%nat) by lia.
  assert (Hin : In (N.to_nat ((draw - 1000) mod 100)) (List.seq 0 100))
    by (apply List.in_seq; split; [apply Nat.le_0_l | exact Hb']).
  apply Hc in Hin; [| apply List.in_seq; split; [apply Nat.le_0_l | exact Ha']].
  cbv zeta in Hin. rewrite !N2Nat.id in Hin.
  replace (1000 + 100 * ((draw - 1000) / 100) + (draw - 1000) mod 100)%N with draw in Hin
    by lia.
  apply andb_true_iff in Hin as [Hl Hal]. apply Nat.eqb_eq in Hl. now split.
Qed.

(** X26. For a drawn number from 1000 to 9999 the code stored by a request
    is a text of exactly four decimal digits, and the identifier given to
    a new citizen is [CIT-] followed by four decimal digits. *)
Theorem code_and_citizen_id_format (p : string) (code : option string) (now : Z)
    (draw : N) (st st' : State) (u : User) :
  (1000 <= draw <= 9999)%N ->
  (forall t0 rec,
      (10 <= String.length p)%nat ->
      otpStore (send_otp (Some p) t0 draw st).2 !! p = Some rec ->
      String.length (otp rec) = 4%nat /\ all_chars JS.is_digit (otp rec) = true)
  /\ (verify_otp p code now draw st = (LoginSuccessful u true, st') ->
      exists digits,
        citizenId u = "CIT-" +:+ digits
        /\ String.length digits = 4%nat /\ all_chars JS.is_digit digits = true).
Proof.
  intros Hd.
  pose proof (four_digits draw Hd) as H4.
  split.
  - intros t0 rec Hp. rewrite (send_accepts p t0 draw st Hp). cbn [snd otpStore].
    rewrite lookup_insert_eq. intros [= <-]. exact H4.
  - unfold verify_otp. destruct (otpStore st !! p) as [r|]; [| discriminate].
    destruct (negb (JS.strict_eq code (otp r))); [discriminate |].
    destruct (expires r <? now); [discriminate |].
    destruct (list_find (has_phone p) (users st)) as [[i u0]|]; [discriminate |].
    intros [= <- _]. exists (JS.toStringRadix 10 draw). split; [reflexivity | exact H4].
Qed.

Lemma code_and_citizen_id_format_witness :
  exists digits,
    citizenId {| phone := "9876543210"; citizenId := "CIT-7000";
                 joinedAt := 2000; isVerified := true |} = "CIT-" +:+ digits
    /\ String.length digits = 4%nat.
Proof.
  destruct (code_and_citizen_id_format "9876543210" (Some "4821") 2000 7000
              (send_otp (Some "9876543210") 1000 4821 {| users := []; otpStore := ∅ |}).2
              (verify_otp "9876543210" (Some "4821") 2000 7000
                 (send_otp (Some "9876543210") 1000 4821
                    {| users := []; otpStore := ∅ |}).2).2
              {| phone := "9876543210"; citizenId := "CIT-7000";
                 joinedAt := 2000; isVerified := true |}) as [_ H]; [lia |].
  destruct H as [digits [H1 [H2 _]]]; [reflexivity |].
  exists digits. split; assumption.
Defined.

End OtpProps.
